(** * FreeRTOS_abstract: a shallow embedding of the C++ wrapper layer

    The development follows [FreeRTOS_abstract.h] and [idle_task.c]:
    - [Kernel]: what the wrappers use of the kernel (constants, the
      millisecond-to-tick conversion, semaphore objects, the calls whose
      answer depends on kernel resources) and the outcome of running
      wrapper code;
    - [Sync]: [Mutex], [BinarySemaphore], [CountingSemaphore];
    - [Tasks]: [Task] and [Task::DoAsync];
    - [BoundedQueue]: [Queue<T, size>];
    - [Timers]: [Timer].
    The properties follow the definitions: [WaitFacts],
    [ConstructionFacts], [AsyncFacts], [QueueFacts], [QueueRuns] and
    [TimerFacts].  [SyncRuns], [TaskControl] ([Task::GetState],
    [Task::Isr]) and [PeriodicWait] ([TimerDelay]) add definitions, and
    [QueueExtras], [SyncExtras], [TaskExtras], [TimerExtras] and
    [PeriodicWaitExtras] further properties. *)

From Stdlib Require Import ZArith List Bool Lia.
From stdpp Require Import base list.
Import ListNotations.

Open Scope Z_scope.

(** ** Outcomes *)

(** Wrapper code either returns, or never does: [configASSERT] ends in
    [assert_failed], an endless loop ([Halts]), and a take with the
    wait-forever tick count on a primitive nobody gives never wakes
    ([Blocks]). *)
Inductive outcome (A : Type) : Type :=
| Returns (a : A)
| Halts
| Blocks.
Arguments Returns {A} a.
Arguments Halts {A}.
Arguments Blocks {A}.

(** State passing with these outcomes. *)
Definition M (S A : Type) : Type := S -> outcome (A * S).

Definition ret {S A : Type} (a : A) : M S A := fun s => Returns (a, s).

Definition bind {S A B : Type} (c : M S A) (f : A -> M S B) : M S B :=
  fun s =>
    match c s with
    | Returns (a, s') => f a s'
    | Halts => Halts
    | Blocks => Blocks
    end.

Declare Scope wrapper_scope.
Delimit Scope wrapper_scope with wrapper.
Notation "x <- c ;; k" := (bind c (fun x => k))
  (at level 100, c at next level, right associativity) : wrapper_scope.
Notation "c ;;; k" := (bind c (fun _ => k))
  (at level 100, right associativity) : wrapper_scope.

Module Kernel.

(** *** Constants of the kernel headers *)

Definition nullptr : Z := 0.
Definition pdFALSE : Z := 0.
Definition pdTRUE : Z := 1.
Definition pdFAIL : Z := 0.
Definition pdPASS : Z := 1.
Definition errCOULD_NOT_ALLOCATE_REQUIRED_MEMORY : Z := -1.
Definition tskIDLE_PRIORITY : Z := 0.

(** [size_t] of the 32-bit targets the kernel runs on. *)
Definition SIZE_MAX : Z := 2 ^ 32 - 1.
Definition size_t_wrap (x : Z) : Z := x mod 2 ^ 32.

(** [UBaseType_t], the unsigned 32-bit type of a priority: an [int] or
    [size_t] added to [tskIDLE_PRIORITY] is converted to it. *)
Definition UBaseType_t_wrap (x : Z) : Z := x mod 2 ^ 32.

(** *** Build configuration

    [FreeRTOSConfig.h] and the kernel headers are not part of the
    repository.  What the wrappers take from them is a parameter of the
    development: the allocation mode, the conversion macro
    [pdMS_TO_TICKS] and the wait-forever tick count [portMAX_DELAY]. *)
Class KernelConfig : Type := {
  configSUPPORT_STATIC_ALLOCATION : bool;
  pdMS_TO_TICKS : Z -> Z;
  portMAX_DELAY : Z
}.

(** [#define WAIT_MAX portMAX_DELAY] *)
Definition WAIT_MAX `{KernelConfig} : Z := portMAX_DELAY.

(** The conversion macro as the kernel's [projdefs.h] defines it, for a
    tick rate [configTICK_RATE_HZ] and a 32-bit [TickType_t]:
    [(TickType_t) (((uint64_t) ms * (uint64_t) configTICK_RATE_HZ) / 1000U)]. *)
Definition projdefs_pdMS_TO_TICKS (configTICK_RATE_HZ xTimeInMs : Z) : Z :=
  ((((xTimeInMs mod 2 ^ 64) * (configTICK_RATE_HZ mod 2 ^ 64)) mod 2 ^ 64)
     / 1000) mod 2 ^ 32.

(** A build with the stock macro, [portMAX_DELAY = 0xffffffffUL]. *)
Definition stock_config (static : bool) (configTICK_RATE_HZ : Z)
  : KernelConfig :=
  {| configSUPPORT_STATIC_ALLOCATION := static;
     pdMS_TO_TICKS := projdefs_pdMS_TO_TICKS configTICK_RATE_HZ;
     portMAX_DELAY := 4294967295 |}.

(** *** Assertions *)

(** [void assert_failed(void) { while (1) { } }] of [idle_task.c]. *)
Definition assert_failed {S A : Type} : M S A := fun _ => Halts.

(** Modelled from the spec: the [configASSERT] macro of
    [FreeRTOSConfig.h], which is not in the repository (a fatal failure
    "halts execution").  A false condition calls [assert_failed]. *)
Definition configASSERT {S : Type} (cond : bool) : M S unit :=
  if cond then ret tt else assert_failed.

(** *** Semaphore objects *)

(** Modelled from the spec: the kernel's semaphore object, "an integer
    count maintained by the kernel, bounded by [0, max]; give/take
    operations respectively increment (up to max, else fail) and
    decrement (down to 0, else block/fail)".  The fields bear the names
    of the kernel's queue structure. *)
Record Semaphore_obj : Type := {
  uxMessagesWaiting : Z;
  uxLength : Z
}.

(** Modelled from the spec: give increments the count up to the maximum,
    else fails. *)
Definition xSemaphoreGive (s : Semaphore_obj) : Z * Semaphore_obj :=
  if uxMessagesWaiting s <? uxLength s
  then (pdTRUE, {| uxMessagesWaiting := uxMessagesWaiting s + 1;
                   uxLength := uxLength s |})
  else (pdFALSE, s).

(** Modelled from the spec: take decrements the count down to zero, else
    blocks or fails.  This is the take of a run in which no other task
    gives while the caller waits, the calls of one task made one after
    another: with a positive count it succeeds at once; with none it
    waits [xTicksToWait] ticks for a give that no one makes, forever when
    that is [portMAX_DELAY].  A take that another task's give wakes is
    that of [Tasks.step_owner]. *)
Definition xSemaphoreTake `{KernelConfig} (xTicksToWait : Z)
  : M Semaphore_obj Z :=
  fun s =>
    if 0 <? uxMessagesWaiting s
    then Returns (pdTRUE, {| uxMessagesWaiting := uxMessagesWaiting s - 1;
                             uxLength := uxLength s |})
    else if xTicksToWait =? portMAX_DELAY then Blocks
    else Returns (pdFALSE, s).

(** The interrupt-safe entry points never wait. *)
Definition xSemaphoreGiveFromISR (s : Semaphore_obj) : Z * Semaphore_obj :=
  xSemaphoreGive s.

Definition xSemaphoreTakeFromISR (s : Semaphore_obj) : Z * Semaphore_obj :=
  if 0 <? uxMessagesWaiting s
  then (pdTRUE, {| uxMessagesWaiting := uxMessagesWaiting s - 1;
                   uxLength := uxLength s |})
  else (pdFALSE, s).

Definition uxSemaphoreGetCount (s : Semaphore_obj) : Z := uxMessagesWaiting s.

(** What the three creation functions set up. *)
Definition mutex_obj : Semaphore_obj :=
  {| uxMessagesWaiting := 1; uxLength := 1 |}.
Definition binary_obj : Semaphore_obj :=
  {| uxMessagesWaiting := 0; uxLength := 1 |}.
Definition counting_obj (uxMaxCount uxInitialCount : Z) : Semaphore_obj :=
  {| uxMessagesWaiting := uxInitialCount; uxLength := uxMaxCount |}.

(** *** Calls answered by the kernel's resources

    Whether a creation finds memory and whether the timer service accepts
    a command is decided inside the kernel, a black box here.  The kernel
    state carries the answers it will give to the coming calls, and the
    calls made so far. *)
Inductive kernel_call : Type :=
| call_xSemaphoreCreateMutex
| call_xSemaphoreCreateMutexStatic
| call_xSemaphoreCreateBinary
| call_xSemaphoreCreateBinaryStatic
| call_xSemaphoreCreateCounting (uxMaxCount uxInitialCount : Z)
| call_xSemaphoreCreateCountingStatic (uxMaxCount uxInitialCount : Z)
| call_vSemaphoreDelete (handle : Z)
| call_xTaskCreate (stack_size uxPriority : Z)
| call_xTaskCreateStatic (stack_size uxPriority : Z)
| call_vTaskDelete (handle : Z)
| call_xTimerCreate (xTimerPeriod : Z) (autoreload : bool)
| call_xTimerCreateStatic (xTimerPeriod : Z) (autoreload : bool)
| call_xTimerDelete (handle xTicksToWait : Z)
| call_xTimerStart (handle xTicksToWait : Z)
| call_xTimerStop (handle xTicksToWait : Z).

Record kernel : Type := {
  answers : list Z;
  calls : list kernel_call
}.

(** One call: it is logged and takes the next answer ([0], a null handle
    or [pdFAIL], once the kernel has none left). *)
Definition ask (c : kernel_call) : M kernel Z :=
  fun k => Returns (hd 0 (answers k),
                    {| answers := tl (answers k); calls := calls k ++ [c] |}).

(** A call with no result. *)
Definition tell (c : kernel_call) : M kernel unit :=
  fun k => Returns (tt, {| answers := answers k; calls := calls k ++ [c] |}).

(** The kernel refuses the [n]-th call from now: its answer is a null
    handle. *)
Definition refuses (k : kernel) (n : nat) : Prop :=
  nth n (answers k) nullptr = nullptr.


Definition is_timer_delete (c : kernel_call) : bool :=
  match c with call_xTimerDelete _ _ => true | _ => false end.

(** How often [xTimerDelete] was called. *)
Definition timer_deletes (k : kernel) : nat :=
  length (filter (fun c => is_timer_delete c = true) (calls k)).

End Kernel.

(** ** Mutex, BinarySemaphore, CountingSemaphore *)

Module Sync.
Import Kernel.

(** A wrapper object: its handle and the kernel object behind it (the
    [buffer] member of a static build, a heap block of a dynamic one).
    Copying is deleted, the wrapper is the object's only owner, so the
    object is kept by value next to the handle. *)
Record Mutex : Type := {
  handle : Z;
  object : Semaphore_obj
}.

(** [class BinarySemaphore : public Mutex] and
    [class CountingSemaphore : public BinarySemaphore] add no member. *)
Definition BinarySemaphore : Type := Mutex.
Definition CountingSemaphore : Type := BinarySemaphore.

Section WithConfig.
Context `{cfg : KernelConfig}.
Local Open Scope wrapper_scope.

(** [Mutex::Mutex()] *)
Definition Mutex_ctor : M kernel Mutex :=
  if configSUPPORT_STATIC_ALLOCATION then
    h <- ask call_xSemaphoreCreateMutexStatic ;;
    ret {| handle := h; object := mutex_obj |}
  else
    h <- ask call_xSemaphoreCreateMutex ;;
    configASSERT (negb (h =? nullptr)) ;;;
    ret {| handle := h; object := mutex_obj |}.

(** [Mutex::~Mutex()] *)
Definition Mutex_dtor (m : Mutex) : M kernel Mutex :=
  (if negb (handle m =? nullptr)
   then tell (call_vSemaphoreDelete (handle m))
   else ret tt) ;;;
  ret {| handle := nullptr; object := object m |}.

(** [bool Mutex::Lock(size_t wait_ms = WAIT_MAX)] *)
Definition Lock (wait_ms : Z) : M Mutex bool :=
  fun m =>
    match xSemaphoreTake (pdMS_TO_TICKS wait_ms) (object m) with
    | Returns (r, o) =>
        Returns (r =? pdTRUE, {| handle := handle m; object := o |})
    | Halts => Halts
    | Blocks => Blocks
    end.

(** [bool Mutex::Unlock()] *)
Definition Unlock (m : Mutex) : bool * Mutex :=
  let '(r, o) := xSemaphoreGive (object m) in
  (r =? pdTRUE, {| handle := handle m; object := o |}).

(** [bool Mutex::LockFromISR()] *)
Definition LockFromISR (m : Mutex) : bool * Mutex :=
  let '(r, o) := xSemaphoreTakeFromISR (object m) in
  (r =? pdTRUE, {| handle := handle m; object := o |}).

(** [bool Mutex::UnlockFromISR()] *)
Definition UnlockFromISR (m : Mutex) : bool * Mutex :=
  let '(r, o) := xSemaphoreGiveFromISR (object m) in
  (r =? pdTRUE, {| handle := handle m; object := o |}).

(** [BinarySemaphore::BinarySemaphore()]: the base sub-object is
    constructed first, then the handle is replaced. *)
Definition BinarySemaphore_ctor : M kernel BinarySemaphore :=
  _base <- Mutex_ctor ;;
  if configSUPPORT_STATIC_ALLOCATION then
    h <- ask call_xSemaphoreCreateBinaryStatic ;;
    ret {| handle := h; object := binary_obj |}
  else
    h <- ask call_xSemaphoreCreateBinary ;;
    configASSERT (negb (h =? nullptr)) ;;;
    ret {| handle := h; object := binary_obj |}.

(** [bool BinarySemaphore::Give()] *)
Definition Give (s : BinarySemaphore) : bool * BinarySemaphore := Unlock s.

(** [bool BinarySemaphore::Take(size_t wait_ms = WAIT_MAX)] *)
Definition Take (wait_ms : Z) : M BinarySemaphore bool := Lock wait_ms.

(** [bool BinarySemaphore::GiveFromISR()] *)
Definition GiveFromISR (s : BinarySemaphore) : bool * BinarySemaphore :=
  UnlockFromISR s.

(** [bool BinarySemaphore::TakeFromISR()] *)
Definition TakeFromISR (s : BinarySemaphore) : bool * BinarySemaphore :=
  LockFromISR s.

(** [CountingSemaphore::CountingSemaphore(size_t initial = 0, size_t max = 100)] *)
Definition CountingSemaphore_ctor (initial max : Z)
  : M kernel CountingSemaphore :=
  _base <- BinarySemaphore_ctor ;;
  if configSUPPORT_STATIC_ALLOCATION then
    h <- ask (call_xSemaphoreCreateCountingStatic max initial) ;;
    ret {| handle := h; object := counting_obj max initial |}
  else
    h <- ask (call_xSemaphoreCreateCounting max initial) ;;
    configASSERT (negb (h =? nullptr)) ;;;
    ret {| handle := h; object := counting_obj max initial |}.

(** [size_t CountingSemaphore::GetCount()] *)
Definition GetCount (s : CountingSemaphore) : Z :=
  uxSemaphoreGetCount (object s).

End WithConfig.
End Sync.

(** ** Task and Task::DoAsync *)

Module Tasks.
Import Kernel.

(** [xTaskCreate] reports [pdPASS] and writes the new handle through
    [pxCreatedTask] when the kernel found memory; otherwise it reports the
    allocation error and leaves [*pxCreatedTask] as it was.  The result is
    the status and the value of [*pxCreatedTask] afterwards. *)
Definition xTaskCreate (stack_size uxPriority pxCreatedTask : Z)
  : M kernel (Z * Z) :=
  (h <- ask (call_xTaskCreate stack_size uxPriority) ;;
   ret (if h =? nullptr
        then (errCOULD_NOT_ALLOCATE_REQUIRED_MEMORY, pxCreatedTask)
        else (pdPASS, h)))%wrapper.

Record Task : Type := {
  handle : Z
}.

(** [class DoAsync]: the job pointer is the spawned task's program below;
    the object keeps the completion semaphore. *)
Record DoAsync : Type := {
  done : Sync.BinarySemaphore
}.

Section WithConfig.
Context `{cfg : KernelConfig}.
(** [template <const size_t stack_size>] *)
Variable stack_size : Z.
Local Open Scope wrapper_scope.

(** [Task::Task(handler, params, name, priority = tskIDLE_PRIORITY + 1)];
    the member initialiser sets [handle = nullptr]. *)
Definition Task_ctor (priority : Z) : M kernel Task :=
  if configSUPPORT_STATIC_ALLOCATION then
    h <- ask (call_xTaskCreateStatic stack_size
                (UBaseType_t_wrap (tskIDLE_PRIORITY + priority))) ;;
    configASSERT (negb (h =? nullptr)) ;;;
    ret {| handle := h |}
  else
    rh <- xTaskCreate stack_size
            (UBaseType_t_wrap (tskIDLE_PRIORITY + priority)) nullptr ;;
    configASSERT (fst rh =? pdPASS) ;;;
    ret {| handle := snd rh |}.

(** [void Task::Delete()] *)
Definition Delete (t : Task) : M kernel Task :=
  (if negb (handle t =? nullptr)
   then tell (call_vTaskDelete (handle t))
   else ret tt) ;;;
  ret {| handle := nullptr |}.

(** [Task::~Task() { Delete(); }] *)
Definition Task_dtor (t : Task) : M kernel Task := Delete t.

(** [static void Task::SelfDelete()] *)
Definition SelfDelete : M kernel unit := tell (call_vTaskDelete nullptr).

(** [DoAsync::DoAsync(job, priority = 1)]: the member [done] is
    constructed before the body runs. *)
Definition DoAsync_ctor (priority : Z) : M kernel DoAsync :=
  d <- Sync.BinarySemaphore_ctor ;;
  (if configSUPPORT_STATIC_ALLOCATION then
     h <- ask (call_xTaskCreateStatic stack_size
                 (UBaseType_t_wrap (tskIDLE_PRIORITY + priority))) ;;
     configASSERT (negb (h =? nullptr))
   else
     rh <- xTaskCreate stack_size
             (UBaseType_t_wrap (tskIDLE_PRIORITY + priority)) nullptr ;;
     configASSERT (fst rh =? pdPASS)) ;;;
  ret {| done := d |}.

(** *** The runner and its job, interleaved

    Two tasks share a [DoAsync] object: the spawned one runs [handler],
    the owner runs the destructor.  The job is the spec's test job: it
    increments a shared counter. *)

(** Where the spawned task stands in
    [handler: c->async_job(); c->done.Give(); Task::SelfDelete();] *)
Inductive handler_pc : Type :=
| at_async_job
| at_Give
| at_SelfDelete
| self_deleted.

(** Where the owner stands in [~DoAsync() { done.Take(WAIT_MAX); }]:
    before it, blocked in the take with the ticks left to wait ([None]:
    no time-out), or past it with what the take reported. *)
Inductive owner_pc : Type :=
| in_scope
| in_Take (ticks_left : option Z)
| dtor_returned (taken : bool).

Record system : Type := {
  counter : Z;
  runner : DoAsync;
  spawned : handler_pc;
  owner : owner_pc
}.

(** The scheduler's choices. *)
Inductive event : Type :=
| run_spawned
| run_owner
| ticks_pass (n : Z).

Definition with_done (o : Semaphore_obj) (r : DoAsync) : DoAsync :=
  {| done := {| Sync.handle := Sync.handle (done r); Sync.object := o |} |}.

Definition count_of (r : DoAsync) : Z := Sync.GetCount (done r).

Definition taken_one (r : DoAsync) : DoAsync :=
  with_done {| uxMessagesWaiting := count_of r - 1;
               uxLength := uxLength (Sync.object (done r)) |} r.

(** One statement of the spawned task. *)
Definition step_spawned (s : system) : system :=
  match spawned s with
  | at_async_job =>
      {| counter := counter s + 1; runner := runner s;
         spawned := at_Give; owner := owner s |}
  | at_Give =>
      {| counter := counter s;
         runner := {| done := snd (Sync.Give (done (runner s))) |};
         spawned := at_SelfDelete; owner := owner s |}
  | at_SelfDelete =>
      {| counter := counter s; runner := runner s;
         spawned := self_deleted; owner := owner s |}
  | self_deleted => s
  end.

(** Modelled from the spec: a take among several tasks, "blocks the
    calling task until the primitive becomes available or timeout
    elapses; returns a success flag".  The owner enters the take with
    [pdMS_TO_TICKS WAIT_MAX] ticks, or is woken with the count it finds. *)
Definition step_owner (s : system) : system :=
  match owner s with
  | in_scope =>
      let xTicksToWait := pdMS_TO_TICKS WAIT_MAX in
      if 0 <? count_of (runner s) then
        {| counter := counter s; runner := taken_one (runner s);
           spawned := spawned s; owner := dtor_returned true |}
      else if xTicksToWait =? portMAX_DELAY then
        {| counter := counter s; runner := runner s;
           spawned := spawned s; owner := in_Take None |}
      else if xTicksToWait <=? 0 then
        {| counter := counter s; runner := runner s;
           spawned := spawned s; owner := dtor_returned false |}
      else
        {| counter := counter s; runner := runner s;
           spawned := spawned s; owner := in_Take (Some xTicksToWait) |}
  | in_Take _ =>
      if 0 <? count_of (runner s) then
        {| counter := counter s; runner := taken_one (runner s);
           spawned := spawned s; owner := dtor_returned true |}
      else s
  | dtor_returned _ => s
  end.

(** Modelled from the spec: [n] ticks go by while the owner waits on a
    semaphore that is still empty; a finite wait that runs out ends the
    take with failure. *)
Definition step_ticks (n : Z) (s : system) : system :=
  match owner s with
  | in_Take (Some ticks_left) =>
      if (0 <? n) && (count_of (runner s) =? 0) then
        if ticks_left <=? n then
          {| counter := counter s; runner := runner s;
             spawned := spawned s; owner := dtor_returned false |}
        else
          {| counter := counter s; runner := runner s;
             spawned := spawned s; owner := in_Take (Some (ticks_left - n)) |}
      else s
  | _ => s
  end.

Definition step (e : event) (s : system) : system :=
  match e with
  | run_spawned => step_spawned s
  | run_owner => step_owner s
  | ticks_pass n => step_ticks n s
  end.

Definition schedule (es : list event) (s : system) : system :=
  fold_left (fun s e => step e s) es s.

(** The system once the constructor has returned [r]. *)
Definition spawned_system (r : DoAsync) : system :=
  {| counter := 0; runner := r; spawned := at_async_job; owner := in_scope |}.

(** The owner has not left the destructor and waits without time-out. *)
Definition waiting (o : owner_pc) : Prop :=
  match o with
  | in_scope | in_Take None => True
  | _ => False
  end.

(** The destructor is a join point: the owner is past it only once the
    job has run and the semaphore was given and taken. *)
Definition joined (s : system) : Prop :=
  uxLength (Sync.object (done (runner s))) = 1 /\
  match spawned s with
  | at_async_job =>
      counter s = 0 /\ count_of (runner s) = 0 /\ waiting (owner s)
  | at_Give =>
      counter s = 1 /\ count_of (runner s) = 0 /\ waiting (owner s)
  | at_SelfDelete | self_deleted =>
      counter s = 1 /\
      ((count_of (runner s) = 1 /\ waiting (owner s)) \/
       (count_of (runner s) = 0 /\ owner s = dtor_returned true))
  end.

End WithConfig.
End Tasks.

(** ** Queue<T, size> *)

Module BoundedQueue.
Import Kernel.

(** Placement-new and explicit destructor calls on the slots, in the
    order they happen (ghost state: the C++ object keeps no such list). *)
Inductive lifetime_event (T : Type) : Type :=
| construct_at (i : Z) (v : T)
| destroy_at (i : Z).
Arguments construct_at {T} i v.
Arguments destroy_at {T} i.

(** A slot of [T buffer[size]] is [Some v] while it holds an element that
    was emplaced and not yet popped, [None] otherwise. *)
Record Queue (T : Type) : Type := {
  semaphore : Sync.CountingSemaphore;
  buffer : list (option T);
  rd_idx : Z;
  wr_idx : Z;
  lifetimes : list (lifetime_event T)
}.
Arguments semaphore {T} q.
Arguments buffer {T} q.
Arguments rd_idx {T} q.
Arguments wr_idx {T} q.
Arguments lifetimes {T} q.

(** What a call gives back: [bool], [T*] (the slot index behind the
    pointer, [None] for [nullptr]) or nothing. *)
Inductive result : Type :=
| res_bool (b : bool)
| res_ptr (p : option Z)
| res_void.

(** What the callers of a queue see of it. *)
Inductive observation (T : Type) : Type :=
| emplace_returned (v : T) (ok : bool)
| front_returned (slot : option (option T))
| pop_destroyed (content : option T).
Arguments emplace_returned {T} v ok.
Arguments front_returned {T} slot.
Arguments pop_destroyed {T} content.

Inductive operation (T : Type) : Type :=
| op_TryEmplaceBack (v : T)
| op_TryPushBack (item : T)
| op_Front (wait_ms : Z)
| op_Pop.
Arguments op_TryEmplaceBack {T} v.
Arguments op_TryPushBack {T} item.
Arguments op_Front {T} wait_ms.
Arguments op_Pop {T}.

Section WithElements.
Context `{cfg : KernelConfig}.
Context {T : Type}.
(** [template <class T, size_t size = 2>] *)
Variable size : Z.
Local Open Scope wrapper_scope.

(** [Queue::Queue()] with the member initialisers
    [semaphore {0, size}], [rd_idx = 0], [wr_idx = 0]. *)
Definition Queue_ctor : M kernel (Queue T) :=
  s <- Sync.CountingSemaphore_ctor 0 size ;;
  ret {| semaphore := s;
         buffer := replicate (Z.to_nat size) None;
         rd_idx := 0;
         wr_idx := 0;
         lifetimes := [] |}.

(** The queue a successful construction returns, for the handle [h] the
    kernel gave its semaphore. *)
Definition fresh (h : Z) : Queue T :=
  {| semaphore := {| Sync.handle := h; Sync.object := counting_obj size 0 |};
     buffer := replicate (Z.to_nat size) None;
     rd_idx := 0;
     wr_idx := 0;
     lifetimes := [] |}.

(** [bool Queue::TryEmplaceBack(Args &&...args)].  The slot written is
    inside the buffer whenever the index is below [size] (see [wf]
    below); a list update outside the list would do nothing. *)
Definition TryEmplaceBack (v : T) (q : Queue T) : bool * Queue T :=
  let next_wr_idx := size_t_wrap (wr_idx q + 1) in
  let next_wr_idx := if next_wr_idx =? size then 0 else next_wr_idx in
  if next_wr_idx =? rd_idx q then (false, q)
  else
    (true,
     {| semaphore := snd (Sync.Give (semaphore q));
        buffer := <[Z.to_nat (wr_idx q) := Some v]> (buffer q);
        rd_idx := rd_idx q;
        wr_idx := next_wr_idx;
        lifetimes := lifetimes q ++ [construct_at (wr_idx q) v] |}).

(** [bool Queue::TryPushBack(const T &item)] *)
Definition TryPushBack (item : T) (q : Queue T) : bool * Queue T :=
  TryEmplaceBack item q.

(** [T* Queue::Front(size_t wait_ms = 0)] *)
Definition Front (wait_ms : Z) : M (Queue T) (option Z) :=
  fun q =>
    if wr_idx q =? rd_idx q then
      if negb (wait_ms =? 0) then
        match Sync.Take wait_ms (semaphore q) with
        | Returns (taken, s) =>
            let q' := {| semaphore := s;
                         buffer := buffer q;
                         rd_idx := rd_idx q;
                         wr_idx := wr_idx q;
                         lifetimes := lifetimes q |} in
            if negb taken then Returns (None, q')
            else Returns (Some (rd_idx q'), q')
        | Halts => Halts
        | Blocks => Blocks
        end
      else Returns (None, q)
    else Returns (Some (rd_idx q), q).

(** [void Queue::Pop()] *)
Definition Pop (q : Queue T) : Queue T :=
  let rd := size_t_wrap (rd_idx q + 1) in
  {| semaphore := semaphore q;
     buffer := <[Z.to_nat (rd_idx q) := None]> (buffer q);
     rd_idx := if rd =? size then 0 else rd;
     wr_idx := wr_idx q;
     lifetimes := lifetimes q ++ [destroy_at (rd_idx q)] |}.

(** *** Sequences of calls *)

Definition perform (o : operation T) : M (Queue T) result :=
  match o with
  | op_TryEmplaceBack v =>
      fun q => let r := TryEmplaceBack v q in Returns (res_bool (fst r), snd r)
  | op_TryPushBack item =>
      fun q => let r := TryPushBack item q in Returns (res_bool (fst r), snd r)
  | op_Front wait_ms =>
      p <- Front wait_ms ;; ret (res_ptr p)
  | op_Pop =>
      fun q => Returns (res_void, Pop q)
  end.

(** The calls of [ops] in turn; the results come back in call order. *)
Fixpoint perform_all (ops : list (operation T)) : M (Queue T) (list result) :=
  match ops with
  | [] => ret []
  | o :: ops' =>
      r <- perform o ;;
      rs <- perform_all ops' ;;
      ret (r :: rs)
  end.

(** A queue is reachable when some sequence of calls on a fresh queue
    returns and leaves it. *)
Definition reachable (q : Queue T) : Prop :=
  exists h ops rs, perform_all ops (fresh h) = Returns (rs, q).

(** *** Measures *)

(** [(write_index - read_index) mod N] *)
Definition occupied (q : Queue T) : Z := (wr_idx q - rd_idx q) mod size.

(** The slots that hold an element. *)
Fixpoint live_slots (slots : list (option T)) : Z :=
  match slots with
  | [] => 0
  | Some _ :: slots' => 1 + live_slots slots'
  | None :: slots' => live_slots slots'
  end.

Definition resident (q : Queue T) : Z := live_slots (buffer q).

(** The queue is full: the next write index would collide with the read
    index. *)
Definition full (q : Queue T) : Prop :=
  (let next_wr_idx := size_t_wrap (wr_idx q + 1) in
   if next_wr_idx =? size then 0 else next_wr_idx) = rd_idx q.

(** The queue is empty: the two indices meet. *)
Definition empty (q : Queue T) : Prop := wr_idx q = rd_idx q.

(** What a consumer reads through the pointer [Front] returned. *)
Definition deref (q : Queue T) (p : Z) : option T :=
  match buffer q !! Z.to_nat p with
  | Some slot => slot
  | None => None
  end.

(** What its callers see of a call: the flag an emplacement returned,
    the slot behind the pointer [Front] returned ([None] for [nullptr]),
    the slot contents [Pop] destroyed. *)
Definition seen (o : operation T) (q : Queue T) (r : result) (q' : Queue T)
  : observation T :=
  match o with
  | op_TryEmplaceBack v | op_TryPushBack v =>
      emplace_returned v (match r with res_bool b => b | _ => false end)
  | op_Front _ =>
      front_returned
        (match r with res_ptr (Some p) => Some (deref q' p) | _ => None end)
  | op_Pop => pop_destroyed (deref q (rd_idx q))
  end.

(** What is seen of the calls of [ops], in call order. *)
Fixpoint observe (ops : list (operation T)) (q : Queue T)
  : list (observation T) :=
  match ops with
  | [] => []
  | o :: ops' =>
      match perform o q with
      | Returns (r, q') => seen o q r q' :: observe ops' q'
      | _ => []
      end
  end.

(** *** The queue of the specification

    A first-in first-out list of at most [size - 1] elements:
    emplacement appends unless the list is full, [Front] shows the oldest
    element or returns empty, [Pop] removes the oldest element. *)
Definition fifo_step (o : operation T) (l : list T)
  : observation T * list T :=
  match o with
  | op_TryEmplaceBack v | op_TryPushBack v =>
      if Z.of_nat (length l) <? size - 1
      then (emplace_returned v true, l ++ [v])
      else (emplace_returned v false, l)
  | op_Front _ => (front_returned (option_map Some (head l)), l)
  | op_Pop => (pop_destroyed (head l), tail l)
  end.

Fixpoint fifo_observe (ops : list (operation T)) (l : list T)
  : list (observation T) :=
  match ops with
  | [] => []
  | o :: ops' => fst (fifo_step o l) :: fifo_observe ops' (snd (fifo_step o l))
  end.

(** The consumer's contract: [Pop] only when there is an element; here
    also, [Front] waits only when there is one. *)
Definition fifo_allows (o : operation T) (l : list T) : bool :=
  match o, l with
  | op_Pop, [] => false
  | op_Front wait_ms, [] => wait_ms =? 0
  | _, _ => true
  end.

Fixpoint fifo_allows_all (ops : list (operation T)) (l : list T) : bool :=
  match ops with
  | [] => true
  | o :: ops' => fifo_allows o l && fifo_allows_all ops' (snd (fifo_step o l))
  end.

(** The buffer holds the list [l] from the read index on. *)
Definition holds (q : Queue T) (l : list T) : Prop :=
  0 <= rd_idx q < size /\ 0 <= wr_idx q < size /\
  length (buffer q) = Z.to_nat size /\
  occupied q = Z.of_nat (length l) /\
  forall (j : nat) (x : T),
    l !! j = Some x ->
    buffer q !! Z.to_nat ((rd_idx q + Z.of_nat j) mod size) = Some (Some x).

(** Slot [i] lies on the ring from the read index up to, not including,
    the write index. *)
Definition in_range (rd wr i : Z) : bool :=
  if rd <=? wr then (rd <=? i) && (i <? wr) else (rd <=? i) || (i <? wr).

(** Both indices address the buffer, and every element sits between
    them. *)
Definition wf (q : Queue T) : Prop :=
  0 <= rd_idx q < size /\ 0 <= wr_idx q < size /\
  length (buffer q) = Z.to_nat size /\
  forall (i : nat) (v : T),
    buffer q !! i = Some (Some v) ->
    in_range (rd_idx q) (wr_idx q) (Z.of_nat i) = true.

(** The state of a queue nothing was popped from: the read index is
    where it started, and the semaphore counts the occupied slots. *)
Definition counted (q : Queue T) : Prop :=
  wf q /\ rd_idx q = 0 /\
  uxLength (Sync.object (semaphore q)) = size /\
  occupied q = Sync.GetCount (semaphore q).

Definition is_Pop (o : operation T) : bool :=
  match o with op_Pop => true | _ => false end.

End WithElements.
End BoundedQueue.

(** ** Timer *)

Module Timers.
Import Kernel.

Record Timer : Type := {
  handle : Z
}.

Section WithConfig.
Context `{cfg : KernelConfig}.
Local Open Scope wrapper_scope.

(** [Timer::Timer(callback, period_ms, autoreload = true, name, timer_id)] *)
Definition Timer_ctor (period_ms : Z) (autoreload : bool) : M kernel Timer :=
  h <- (if configSUPPORT_STATIC_ALLOCATION
        then ask (call_xTimerCreateStatic (pdMS_TO_TICKS period_ms) autoreload)
        else ask (call_xTimerCreate (pdMS_TO_TICKS period_ms) autoreload)) ;;
  configASSERT (negb (h =? nullptr)) ;;;
  ret {| handle := h |}.

(** [void Timer::Delete(size_t wait_ms = 0)] *)
Definition Delete (wait_ms : Z) (t : Timer) : M kernel Timer :=
  (if negb (handle t =? nullptr) then
     r <- ask (call_xTimerDelete (handle t) (pdMS_TO_TICKS wait_ms)) ;;
     configASSERT (r =? pdPASS)
   else ret tt) ;;;
  ret {| handle := nullptr |}.

(** [Timer::~Timer() { Delete(); }] *)
Definition Timer_dtor (t : Timer) : M kernel Timer := Delete 0 t.

(** [void Timer::Start(size_t wait_ms = 0)] *)
Definition Start (wait_ms : Z) (t : Timer) : M kernel unit :=
  r <- ask (call_xTimerStart (handle t) (pdMS_TO_TICKS wait_ms)) ;;
  configASSERT (r =? pdPASS).

(** [void Timer::Stop(size_t wait_ms = 0)] *)
Definition Stop (wait_ms : Z) (t : Timer) : M kernel unit :=
  r <- ask (call_xTimerStop (handle t) (pdMS_TO_TICKS wait_ms)) ;;
  configASSERT (r =? pdPASS).

(** [Delete] with each wait of [waits] in turn, then the destructor. *)
Fixpoint Delete_all (waits : list Z) (t : Timer) : M kernel Timer :=
  match waits with
  | [] => Timer_dtor t
  | w :: waits' => t' <- Delete w t ;; Delete_all waits' t'
  end.

End WithConfig.
End Timers.

(** ** Sample builds and states *)

Module Samples.
Import Kernel.

(** A dynamic-allocation build with the stock macro at 1000 Hz. *)
Definition dynamic_1000Hz : KernelConfig := stock_config false 1000.

(** [Queue<int, 4>] after three emplacements. *)
Definition three_of_four : BoundedQueue.Queue Z :=
  {| BoundedQueue.semaphore :=
       {| Sync.handle := 1;
          Sync.object := {| uxMessagesWaiting := 3; uxLength := 4 |} |};
     BoundedQueue.buffer := [Some 1; Some 2; Some 3; None];
     BoundedQueue.rd_idx := 0;
     BoundedQueue.wr_idx := 3;
     BoundedQueue.lifetimes :=
       [BoundedQueue.construct_at 0 1; BoundedQueue.construct_at 1 2;
        BoundedQueue.construct_at 2 3] |}.

(** [Queue<int, 2>] after one emplacement, and after the [Pop] of that
    element. *)
Definition one_of_two : BoundedQueue.Queue Z :=
  {| BoundedQueue.semaphore :=
       {| Sync.handle := 1;
          Sync.object := {| uxMessagesWaiting := 1; uxLength := 2 |} |};
     BoundedQueue.buffer := [Some 7; None];
     BoundedQueue.rd_idx := 0;
     BoundedQueue.wr_idx := 1;
     BoundedQueue.lifetimes := [BoundedQueue.construct_at 0 7] |}.

Definition popped_one_of_two : BoundedQueue.Queue Z :=
  {| BoundedQueue.semaphore :=
       {| Sync.handle := 1;
          Sync.object := {| uxMessagesWaiting := 1; uxLength := 2 |} |};
     BoundedQueue.buffer := [None; None];
     BoundedQueue.rd_idx := 1;
     BoundedQueue.wr_idx := 1;
     BoundedQueue.lifetimes :=
       [BoundedQueue.construct_at 0 7; BoundedQueue.destroy_at 0] |}.

(** A kernel that accepts the next call, and one that refuses it. *)
Definition accepting : kernel := {| answers := [1]; calls := [] |}.
Definition refusing : kernel := {| answers := [0]; calls := [] |}.


(** A timer the kernel created with handle 5. *)
Definition a_timer : Timers.Timer := {| Timers.handle := 5 |}.

End Samples.

(** ** Runs of semaphore calls *)

Module SyncRuns.
Import Kernel.

(** The calls of [Mutex] and its two derived classes. *)
Inductive call : Type :=
| call_Lock (wait_ms : Z)
| call_Unlock
| call_LockFromISR
| call_UnlockFromISR.

Section WithConfig.
Context `{cfg : KernelConfig}.
Local Open Scope wrapper_scope.

Definition perform (c : call) : M Sync.Mutex bool :=
  match c with
  | call_Lock wait_ms => Sync.Lock wait_ms
  | call_Unlock => fun m => Returns (Sync.Unlock m)
  | call_LockFromISR => fun m => Returns (Sync.LockFromISR m)
  | call_UnlockFromISR => fun m => Returns (Sync.UnlockFromISR m)
  end.

Fixpoint perform_all (cs : list call) : M Sync.Mutex (list bool) :=
  match cs with
  | [] => ret []
  | c :: cs' =>
      r <- perform c ;;
      rs <- perform_all cs' ;;
      ret (r :: rs)
  end.

(** [Give] called [n] times in a row; the flags come back in call order. *)
Fixpoint Give_times (n : nat) (s : Sync.BinarySemaphore)
  : list bool * Sync.BinarySemaphore :=
  match n with
  | O => ([], s)
  | S n' =>
      let r := Sync.Give s in
      let rest := Give_times n' (snd r) in
      (fst r :: fst rest, snd rest)
  end.

(** A constructor followed by the destructor of the object it made. *)
Definition CountingSemaphore_life (initial max : Z) : M kernel Sync.Mutex :=
  s <- Sync.CountingSemaphore_ctor initial max ;;
  Sync.Mutex_dtor s.

End WithConfig.
End SyncRuns.

(** ** Task state and interrupt-context critical sections *)

Module TaskControl.
Import Kernel.

(** [eTaskState] of the kernel's [task.h]; its enumerators are numbered
    from 0 in this order. *)
Inductive eTaskState : Type :=
| eRunning
| eReady
| eBlocked
| eSuspended
| eDeleted
| eInvalid.

Definition eTaskState_value (s : eTaskState) : Z :=
  match s with
  | eRunning => 0
  | eReady => 1
  | eBlocked => 2
  | eSuspended => 3
  | eDeleted => 4
  | eInvalid => 5
  end.

(** [enum TaskState { Ready, Running, Blocked, Suspended, Deleted };] *)
Inductive TaskState : Type :=
| Ready
| Running
| Blocked
| Suspended
| Deleted.

Definition TaskState_value (s : TaskState) : Z :=
  match s with
  | Ready => 0
  | Running => 1
  | Blocked => 2
  | Suspended => 3
  | Deleted => 4
  end.

(** The enumerator of [TaskState] a number stands for, if any. *)
Definition TaskState_named (n : Z) : option TaskState :=
  if n =? 0 then Some Ready
  else if n =? 1 then Some Running
  else if n =? 2 then Some Blocked
  else if n =? 3 then Some Suspended
  else if n =? 4 then Some Deleted
  else None.

(** [TaskState GetState() { eTaskState state = eTaskGetState(handle);
    return (TaskState)state; }]: the cast keeps the number.  The argument
    is what the kernel reports for the handle. *)
Definition GetState (eTaskGetState : eTaskState) : Z :=
  eTaskState_value eTaskGetState.

(** The port's side of a critical section in an interrupt: the statuses
    [taskENTER_CRITICAL_FROM_ISR] will return, and the statuses handed to
    [taskEXIT_CRITICAL_FROM_ISR] so far. *)
Record port : Type := {
  statuses : list Z;
  restored : list Z
}.

Definition taskENTER_CRITICAL_FROM_ISR : M port Z :=
  fun p => Returns (hd 0 (statuses p),
                    {| statuses := tl (statuses p); restored := restored p |}).

Definition taskEXIT_CRITICAL_FROM_ISR (x : Z) : M port unit :=
  fun p => Returns (tt, {| statuses := statuses p;
                           restored := restored p ++ [x] |}).

(** [class Isr]: its one static member. *)
Record Isr : Type := {
  uxSavedInterruptStatus : Z
}.

Local Open Scope wrapper_scope.

(** [static void Isr::EnterCritical()] *)
Definition Isr_EnterCritical (i : Isr) : M port Isr :=
  x <- taskENTER_CRITICAL_FROM_ISR ;;
  ret {| uxSavedInterruptStatus := x |}.

(** [static void Isr::ExitCritical()] *)
Definition Isr_ExitCritical (i : Isr) : M port Isr :=
  taskEXIT_CRITICAL_FROM_ISR (uxSavedInterruptStatus i) ;;;
  ret i.

End TaskControl.

(** ** TimerDelay *)

Module PeriodicWait.
Import Kernel.

Record TimerDelay : Type := {
  xLastWakeTime : Z
}.

(** Modelled from the spec: [vTaskDelayUntil] of the kernel, which
    "blocks the calling task until exactly ms has elapsed since the last
    recorded wake time, then advances that reference time by ms".  The
    result is the new value of [*pxPreviousWakeTime], a 32-bit tick
    count. *)
Definition vTaskDelayUntil (pxPreviousWakeTime xTimeIncrement : Z) : Z :=
  (pxPreviousWakeTime + xTimeIncrement) mod 2 ^ 32.

Section WithConfig.
Context `{cfg : KernelConfig}.

(** [void TimerDelay::Reset()]; the argument is what
    [xTaskGetTickCount()] returns. *)
Definition Reset (xTaskGetTickCount : Z) (d : TimerDelay) : TimerDelay :=
  {| xLastWakeTime := xTaskGetTickCount |}.

(** [TimerDelay::TimerDelay(bool start = true)] with the member
    initialiser [xLastWakeTime = 0]. *)
Definition TimerDelay_ctor (start : bool) (xTaskGetTickCount : Z)
  : TimerDelay :=
  let d := {| xLastWakeTime := 0 |} in
  if start then Reset xTaskGetTickCount d else d.

(** [void TimerDelay::Wait(size_t ms)] *)
Definition Wait (ms : Z) (d : TimerDelay) : TimerDelay :=
  {| xLastWakeTime := vTaskDelayUntil (xLastWakeTime d) (pdMS_TO_TICKS ms) |}.

(** [Wait] with each period of [periods] in turn. *)
Definition Wait_all (periods : list Z) (d : TimerDelay) : TimerDelay :=
  fold_left (fun d ms => Wait ms d) periods d.

End WithConfig.
End PeriodicWait.

(** * Properties *)

(** ** Waiting: milliseconds, ticks and the wait-forever sentinel *)

Module WaitFacts.
Import Kernel Sync.

(** With a 1000 Hz tick the stock macro keeps every 32-bit wait. *)
Lemma stock_1000Hz_exact (static : bool) (wait_ms : Z) :
  0 <= wait_ms < 2 ^ 32 ->
  @pdMS_TO_TICKS (stock_config static 1000) wait_ms = wait_ms.
Proof.
  intros H. simpl. unfold projdefs_pdMS_TO_TICKS.
  rewrite (Z.mod_small wait_ms) by lia.
  rewrite (Z.mod_small 1000) by lia.
  rewrite (Z.mod_small (wait_ms * 1000)) by lia.
  rewrite Z.div_mul by lia. apply Z.mod_small. lia.
Qed.

(** So at 1000 Hz [WAIT_MAX] reaches the kernel as [portMAX_DELAY], and
    no other 32-bit wait does. *)
Lemma stock_1000Hz_keeps_WAIT_MAX (static : bool) (wait_ms : Z) :
  let cfg := stock_config static 1000 in
  @pdMS_TO_TICKS cfg (@WAIT_MAX cfg) = @portMAX_DELAY cfg /\
  (0 <= wait_ms < 2 ^ 32 -> wait_ms <> @WAIT_MAX cfg ->
   @pdMS_TO_TICKS cfg wait_ms <> @portMAX_DELAY cfg).
Proof.
  cbv zeta. split.
  - unfold WAIT_MAX. rewrite stock_1000Hz_exact; simpl; [reflexivity | lia].
  - intros Hr Hne. rewrite stock_1000Hz_exact by assumption. exact Hne.
Qed.

(** The scenarios of the specification: a fresh binary semaphore is not
    signalled, so [Take(0)] fails, and after [Give] it succeeds; a
    counting semaphore with maximum 2 accepts two gives and refuses the
    third. *)
Lemma scenario_semaphores (cfg : KernelConfig) :
  let fresh_binary := {| handle := 1; object := binary_obj |} in
  let fresh_counting := {| handle := 2; object := counting_obj 2 0 |} in
  fst (Give fresh_binary) = true /\
  (pdMS_TO_TICKS 0 <> portMAX_DELAY ->
   Take 0 fresh_binary = Returns (false, fresh_binary) /\
   Take 0 (snd (Give fresh_binary)) = Returns (true, fresh_binary)) /\
  fst (Give fresh_counting) = true /\
  fst (Give (snd (Give fresh_counting))) = true /\
  fst (Give (snd (Give (snd (Give fresh_counting))))) = false /\
  GetCount (snd (Give (snd (Give fresh_counting)))) = 2.
Proof.
  cbv zeta. repeat split; try reflexivity.
  - unfold Take, Lock, xSemaphoreTake. simpl.
    destruct (Z.eqb_spec (pdMS_TO_TICKS 0) portMAX_DELAY); [contradiction|].
    reflexivity.
Qed.

(** C2: in a build with the stock macro and a 100 Hz tick, [WAIT_MAX] is
    converted to 429496729 ticks, which is not [portMAX_DELAY] and is
    what the finite wait of 4294967290 ms is converted to as well; [Lock]
    and [Take] with [WAIT_MAX] on a held primitive then time out and
    return false. *)
Theorem C2_WAIT_MAX_is_rescaled_at_100Hz :
  let cfg := stock_config false 100 in
  let held := {| handle := 1;
                 object := {| uxMessagesWaiting := 0; uxLength := 1 |} |} in
  @pdMS_TO_TICKS cfg (@WAIT_MAX cfg) = 429496729 /\
  @portMAX_DELAY cfg = 4294967295 /\
  @pdMS_TO_TICKS cfg 4294967290 = @pdMS_TO_TICKS cfg (@WAIT_MAX cfg) /\
  @Lock cfg (@WAIT_MAX cfg) held = Returns (false, held) /\
  @Take cfg (@WAIT_MAX cfg) held = Returns (false, held).
Proof.
  cbv zeta. repeat split; vm_compute; reflexivity.
Qed.

End WaitFacts.

(** ** Construction *)

Module ConstructionFacts.
Import Kernel.

Ltac run_ctor :=
  unfold Sync.CountingSemaphore_ctor, Sync.BinarySemaphore_ctor,
    Sync.Mutex_ctor, Tasks.Task_ctor, Tasks.xTaskCreate, Timers.Timer_ctor,
    bind, ask, configASSERT, ret, assert_failed; simpl.

Ltac by_answer :=
  repeat (match goal with
          | |- context [?a =? nullptr] => destruct (Z.eqb_spec a nullptr)
          end; simpl).

Ltac checked :=
  split;
  [ intros; try reflexivity; tauto
  | intros ? ? H; try discriminate H; injection H as <- _; simpl;
    assumption ].

Section WithConfig.
Context `{cfg : KernelConfig}.

Lemma refuses_0 (k : kernel) : refuses k 0 <-> hd 0 (answers k) = nullptr.
Proof. unfold refuses. destruct (answers k); simpl; tauto. Qed.

Lemma refuses_1 (k : kernel) :
  refuses k 1 <-> hd 0 (tl (answers k)) = nullptr.
Proof. unfold refuses. destruct (answers k) as [|? [|? ?]]; simpl; tauto. Qed.

Lemma refuses_2 (k : kernel) :
  refuses k 2 <-> hd 0 (tl (tl (answers k))) = nullptr.
Proof.
  unfold refuses. destruct (answers k) as [|? [|? [|? ?]]]; simpl; tauto.
Qed.





Lemma CountingSemaphore_ctor_dynamic (initial max : Z) (k : kernel) :
  configSUPPORT_STATIC_ALLOCATION = false ->
  (refuses k 0 \/ refuses k 1 \/ refuses k 2 ->
   Sync.CountingSemaphore_ctor initial max k = Halts) /\
  (forall s k', Sync.CountingSemaphore_ctor initial max k = Returns (s, k') ->
                Sync.handle s <> nullptr).
Proof.
  rewrite refuses_0, refuses_1, refuses_2. run_ctor. intros ->. simpl.
  by_answer.
  all: checked.
Qed.




End WithConfig.

End ConstructionFacts.

(** ** The asynchronous job runner *)

Module AsyncFacts.
Import Kernel Tasks.

Section WithConfig.
Context `{cfg : KernelConfig}.
(** The conversion keeps the sentinel. *)
Hypothesis WAIT_MAX_kept : pdMS_TO_TICKS WAIT_MAX = portMAX_DELAY.

Lemma joined_step (e : event) (s : system) : joined s -> joined (step e s).
Proof.
  destruct s as [c [[h [n len]]] sp ow].
  unfold joined, count_of, Sync.GetCount, uxSemaphoreGetCount; simpl.
  intros [Hlen H]. subst len.
  destruct e as [| |ticks]; simpl.
  - destruct sp; simpl; unfold count_of, Sync.GetCount, Sync.Give,
      Sync.Unlock, xSemaphoreGive, uxSemaphoreGetCount; simpl.
    + intuition lia.
    + destruct H as (-> & -> & Hw). simpl. auto.
    + intuition lia.
    + intuition lia.
  - unfold step_owner, count_of, Sync.GetCount, uxSemaphoreGetCount; simpl.
    rewrite WAIT_MAX_kept, Z.eqb_refl.
    destruct ow as [|[ticks_left|]|taken]; simpl;
      destruct (Z.ltb_spec 0 n); simpl;
      destruct sp; unfold taken_one, with_done, count_of, Sync.GetCount,
        uxSemaphoreGetCount; simpl in *;
      intuition (try lia; try discriminate).
  - unfold step_ticks. simpl.
    destruct ow as [|[ticks_left|]|taken]; simpl;
      try (split; [reflexivity|assumption]).
    destruct sp; simpl in *;
      intuition (try lia; try discriminate; try contradiction).
Qed.

Lemma joined_schedule (es : list event) :
  forall s, joined s -> joined (schedule es s).
Proof.
  induction es as [|e es IH]; simpl; intros s Hs; [exact Hs|].
  apply IH, joined_step, Hs.
Qed.

(** X19: When the conversion keeps the sentinel, no schedule lets the
    destructor return before the job has run and the semaphore has been
    given, and the take never reports a time-out. *)
Lemma dtor_joins (h : Z) (es : list event) (taken : bool) :
  let r := {| done := {| Sync.handle := h; Sync.object := binary_obj |} |} in
  owner (schedule es (spawned_system r)) = dtor_returned taken ->
  taken = true /\
  counter (schedule es (spawned_system r)) = 1 /\
  (spawned (schedule es (spawned_system r)) = at_SelfDelete \/
   spawned (schedule es (spawned_system r)) = self_deleted).
Proof.
  intros r Ho.
  assert (Hj : joined (schedule es (spawned_system r))).
  { apply joined_schedule. unfold joined; simpl. auto. }
  destruct Hj as [_ Hj]. rewrite Ho in Hj.
  destruct (spawned (schedule es (spawned_system r))); simpl in Hj.
  - destruct Hj as (_ & _ & []).
  - destruct Hj as (_ & _ & []).
  - destruct Hj as (Hc & [[_ []]|[_ E]]). injection E as ->. auto.
  - destruct Hj as (Hc & [[_ []]|[_ E]]). injection E as ->. auto.
Qed.

End WithConfig.

(** C7: in a build with the stock macro and a 100 Hz tick the runner is
    constructed, the owner enters the destructor, and after 429496729
    ticks without a give the destructor has returned: the take timed out,
    the job has not run and the semaphore has not been given. *)
Theorem C7_dtor_times_out_at_100Hz :
  let cfg := stock_config false 100 in
  let k := {| answers := [1; 2; 3]; calls := [] |} in
  exists (r : DoAsync) (k' : kernel),
    @DoAsync_ctor cfg 128 1 k = Returns (r, k') /\
    let s := @schedule cfg [run_owner; ticks_pass 429496729]
               (spawned_system r) in
    owner s = dtor_returned false /\
    counter s = 0 /\
    spawned s = at_async_job /\
    count_of (runner s) = 0.
Proof.
  cbv zeta. do 2 eexists. split; [vm_compute; reflexivity|].
  repeat split; vm_compute; reflexivity.
Qed.

End AsyncFacts.

(** ** The bounded queue *)

Module QueueFacts.
Import Kernel BoundedQueue.

Ltac compare_all :=
  repeat match goal with
    | |- context [?a <=? ?b] => destruct (Z.leb_spec a b)
    | |- context [?a <? ?b] => destruct (Z.ltb_spec a b)
    | |- context [?a =? ?b] => destruct (Z.eqb_spec a b)
    | H : context [?a <=? ?b] |- _ => destruct (Z.leb_spec a b)
    | H : context [?a <? ?b] |- _ => destruct (Z.ltb_spec a b)
    | H : context [?a =? ?b] |- _ => destruct (Z.eqb_spec a b)
    end;
  simpl in *; try reflexivity; try discriminate; try lia.

Section Ring.
Context `{cfg : KernelConfig}.
Context {T : Type}.
Variable size : Z.
(** The buffer has at least one slot, and [size] is a [size_t]. *)
Hypothesis size_range : 0 < size <= SIZE_MAX.

(** The slot after [i] on the ring, as [TryEmplaceBack] and [Pop] compute
    it: the addition never wraps in [size_t]. *)
Lemma next_index (i : Z) :
  0 <= i < size ->
  (if size_t_wrap (i + 1) =? size then 0 else size_t_wrap (i + 1))
  = if i + 1 =? size then 0 else i + 1.
Proof.
  intros Hi. unfold size_t_wrap, SIZE_MAX in *.
  rewrite Z.mod_small by lia. reflexivity.
Qed.

Lemma ring_distance (a b : Z) :
  0 <= a < size -> 0 <= b < size ->
  (a - b) mod size = if b <=? a then a - b else a - b + size.
Proof.
  intros Ha Hb. destruct (Z.leb_spec b a).
  - apply Z.mod_small. lia.
  - rewrite <- (Z.mod_add (a - b) 1 size) by lia.
    rewrite Z.mul_1_l. apply Z.mod_small. lia.
Qed.

(** *** Every call keeps the queue well formed *)

Lemma wf_fresh (h : Z) : wf size (fresh (T := T) size h).
Proof.
  unfold wf, fresh; simpl. repeat split; try lia.
  - apply length_replicate.
  - intros i v H. apply lookup_replicate in H. destruct H; discriminate.
Qed.

Lemma wf_TryEmplaceBack (v : T) (q : Queue T) :
  wf size q -> wf size (snd (TryEmplaceBack size v q)).
Proof.
  intros (Hrd & Hwr & Hlen & Hlive). unfold TryEmplaceBack.
  rewrite next_index by assumption.
  destruct (Z.eqb_spec (if wr_idx q + 1 =? size then 0 else wr_idx q + 1)
              (rd_idx q)) as [E|E]; simpl.
  - repeat split; assumption || lia.
  - unfold wf; simpl. repeat split; try (compare_all; fail).
    + rewrite length_insert. assumption.
    + intros i v' H.
      destruct (decide (i = Z.to_nat (wr_idx q))) as [->|Hne].
      * unfold in_range. rewrite Z2Nat.id by lia. compare_all.
      * rewrite list_lookup_insert_ne in H by congruence.
        specialize (Hlive i v' H). apply lookup_lt_Some in H.
        unfold in_range in *. compare_all.
Qed.

Lemma wf_Pop (q : Queue T) : wf size q -> wf size (Pop size q).
Proof.
  intros (Hrd & Hwr & Hlen & Hlive). unfold Pop, wf; simpl.
  rewrite next_index by assumption.
  repeat split; try (compare_all; fail).
  - rewrite length_insert. assumption.
  - intros i v H.
    destruct (decide (i = Z.to_nat (rd_idx q))) as [->|Hne].
    + rewrite list_lookup_insert_eq in H by lia. discriminate.
    + rewrite list_lookup_insert_ne in H by congruence.
      specialize (Hlive i v H). apply lookup_lt_Some in H.
      assert (Z.of_nat i <> rd_idx q) by lia.
      unfold in_range in *. compare_all.
Qed.

(** [Front] changes the semaphore at most. *)
Lemma Front_frame (wait_ms : Z) (q : Queue T) (p : option Z) (q' : Queue T) :
  Front wait_ms q = Returns (p, q') ->
  buffer q' = buffer q /\ rd_idx q' = rd_idx q /\ wr_idx q' = wr_idx q /\
  lifetimes q' = lifetimes q.
Proof.
  unfold Front. intros H.
  destruct (wr_idx q =? rd_idx q); [destruct (negb (wait_ms =? 0))|].
  - destruct (Sync.Take wait_ms (semaphore q)) as [[taken s]| |];
      try discriminate.
    destruct (negb taken); injection H as <- <-; simpl; auto.
  - injection H as <- <-; auto.
  - injection H as <- <-; auto.
Qed.

Lemma wf_Front (wait_ms : Z) (q : Queue T) (p : option Z) (q' : Queue T) :
  Front wait_ms q = Returns (p, q') -> wf size q -> wf size q'.
Proof.
  intros H Hq. apply Front_frame in H as (Hb & Hr & Hw & _).
  unfold wf. rewrite Hb, Hr, Hw. exact Hq.
Qed.

Lemma wf_perform (o : operation T) (q : Queue T) (r : result) (q' : Queue T) :
  perform size o q = Returns (r, q') -> wf size q -> wf size q'.
Proof.
  destruct o as [v|v|w|]; simpl; intros H Hq.
  - injection H as <- <-. apply wf_TryEmplaceBack, Hq.
  - injection H as <- <-. apply wf_TryEmplaceBack, Hq.
  - unfold bind in H.
    destruct (Front w q) as [[p q1]| |] eqn:E; try discriminate.
    injection H as <- <-. eapply wf_Front; eauto.
  - injection H as <- <-. apply wf_Pop, Hq.
Qed.

Lemma wf_perform_all (ops : list (operation T)) :
  forall (q : Queue T) (rs : list result) (q' : Queue T),
    perform_all size ops q = Returns (rs, q') -> wf size q -> wf size q'.
Proof.
  induction ops as [|o ops IH]; simpl; intros q rs q' H Hq.
  - injection H as <- <-. exact Hq.
  - unfold bind in H.
    destruct (perform size o q) as [[r q1]| |] eqn:E; try discriminate.
    destruct (perform_all size ops q1) as [[rs1 q2]| |] eqn:E2;
      try discriminate.
    injection H as <- <-. eapply IH; eauto using wf_perform.
Qed.

Lemma wf_reachable (q : Queue T) : reachable size q -> wf size q.
Proof.
  intros (h & ops & rs & H). eapply wf_perform_all; eauto using wf_fresh.
Qed.

(** *** Counting the elements *)

Lemma live_slots_app (l1 l2 : list (option T)) :
  live_slots (l1 ++ l2) = live_slots l1 + live_slots l2.
Proof.
  induction l1 as [|[x|] l1 IH]; simpl; lia.
Qed.

Lemma live_slots_bounds (l : list (option T)) :
  0 <= live_slots l <= Z.of_nat (length l).
Proof.
  induction l as [|[x|] l IH]; simpl length; simpl live_slots; lia.
Qed.

(** When every element sits before position [d], at most [d] slots hold
    one. *)
Lemma live_slots_before (l : list (option T)) :
  forall d : Z,
    0 <= d ->
    (forall (j : nat) (v : T), l !! j = Some (Some v) -> Z.of_nat j < d) ->
    live_slots l <= d.
Proof.
  induction l as [|x l IH]; intros d Hd H; simpl; [lia|].
  assert (Htail : forall d', 0 <= d' -> d' + 1 = d \/ (d' = 0 /\ d = 0) ->
                             live_slots l <= d').
  { intros d' Hd' Hdd. apply IH; [assumption|].
    intros j v Hj. specialize (H (S j) v Hj). lia. }
  destruct x as [v|].
  - specialize (H 0%nat v eq_refl). specialize (Htail (d - 1)). lia.
  - destruct (Z.eq_dec d 0) as [->|Hne].
    + apply (Htail 0); lia.
    + specialize (Htail (d - 1)). lia.
Qed.

(** The elements fit between the indices. *)
Lemma resident_le_occupied (q : Queue T) :
  wf size q -> resident q <= occupied size q.
Proof.
  intros (Hrd & Hwr & Hlen & Hlive). unfold resident, occupied.
  rewrite ring_distance by assumption.
  set (r := Z.to_nat (rd_idx q)).
  rewrite <- (take_drop r (buffer q)), live_slots_app.
  assert (Hdrop : forall (j : nat) (v : T),
             drop r (buffer q) !! j = Some (Some v) ->
             in_range (rd_idx q) (wr_idx q) (rd_idx q + Z.of_nat j) = true).
  { intros j v Hj. rewrite lookup_drop in Hj. apply Hlive in Hj.
    replace (Z.of_nat (r + j)) with (rd_idx q + Z.of_nat j) in Hj
      by (unfold r; lia).
    exact Hj. }
  assert (Htake : forall (j : nat) (v : T),
             take r (buffer q) !! j = Some (Some v) ->
             Z.of_nat j < rd_idx q /\
             in_range (rd_idx q) (wr_idx q) (Z.of_nat j) = true).
  { intros j v Hj.
    assert (j < r)%nat.
    { apply lookup_lt_Some in Hj. rewrite length_take in Hj. lia. }
    rewrite lookup_take_lt in Hj by assumption.
    split; [unfold r in *; lia | eauto]. }
  pose proof (live_slots_bounds (drop r (buffer q))) as Bd.
  pose proof (live_slots_bounds (take r (buffer q))) as Bt.
  rewrite length_drop in Bd. rewrite length_take in Bt.
  destruct (Z.leb_spec (rd_idx q) (wr_idx q)) as [Hle|Hgt].
  - assert (live_slots (take r (buffer q)) <= 0).
    { apply live_slots_before; [lia|]. intros j v Hj.
      apply Htake in Hj as [Hlt Hin]. unfold in_range in Hin. compare_all. }
    assert (live_slots (drop r (buffer q)) <= wr_idx q - rd_idx q).
    { apply live_slots_before; [lia|]. intros j v Hj.
      apply Hdrop in Hj. unfold in_range in Hj. compare_all. }
    lia.
  - assert (live_slots (take r (buffer q)) <= wr_idx q).
    { apply live_slots_before; [lia|]. intros j v Hj.
      apply Htake in Hj as [Hlt Hin]. unfold in_range in Hin. compare_all. }
    unfold r in *. lia.
Qed.

Lemma occupied_lt_size (q : Queue T) : 0 <= occupied size q <= size - 1.
Proof.
  unfold occupied.
  pose proof (Z.mod_pos_bound (wr_idx q - rd_idx q) size). lia.
Qed.

Lemma occupied_full (q : Queue T) :
  wf size q -> occupied size q = size - 1 -> full size q.
Proof.
  intros (Hrd & Hwr & _) H. unfold occupied in H.
  rewrite ring_distance in H by assumption.
  unfold full. rewrite next_index by assumption. compare_all.
Qed.

Lemma TryEmplaceBack_full (q : Queue T) (v : T) :
  full size q -> TryEmplaceBack size v q = (false, q).
Proof.
  unfold full, TryEmplaceBack. intros ->. rewrite Z.eqb_refl. reflexivity.
Qed.

Lemma empty_has_no_element (q : Queue T) :
  wf size q -> empty q -> forall i : Z, deref q i = None.
Proof.
  intros (Hrd & Hwr & Hlen & Hlive) He i. unfold deref, empty in *.
  destruct (buffer q !! Z.to_nat i) as [[v|]|] eqn:E; try reflexivity.
  apply Hlive in E. unfold in_range in E. rewrite He in E. compare_all.
Qed.

Lemma rd_idx_Pop (q : Queue T) :
  wf size q -> rd_idx (Pop size q) = (rd_idx q + 1) mod size.
Proof.
  intros (Hrd & _). unfold Pop; simpl. rewrite next_index by assumption.
  destruct (Z.eqb_spec (rd_idx q + 1) size) as [E|E].
  - rewrite E, Z.mod_same by lia. reflexivity.
  - rewrite Z.mod_small by lia. reflexivity.
Qed.

(** *** A consumer that keeps its contract and never waits on an empty
    queue sees the queue of the specification *)

Lemma ring_offset (a j : Z) :
  0 <= a < size -> 0 <= j < size ->
  (a + j) mod size = if a + j <? size then a + j else a + j - size.
Proof.
  intros Ha Hj. destruct (Z.ltb_spec (a + j) size).
  - apply Z.mod_small. lia.
  - rewrite <- (Z.mod_add (a + j) (-1) size) by lia.
    apply Z.mod_small. lia.
Qed.

Lemma holds_fresh (h : Z) : holds size (fresh (T := T) size h) [].
Proof.
  unfold holds, occupied; simpl. rewrite Z.mod_0_l by lia.
  repeat split; try lia.
  - apply length_replicate.
  - intros j x H. discriminate.
Qed.

Lemma holds_TryEmplaceBack (v : T) (q : Queue T) (l : list T) :
  holds size q l ->
  fst (TryEmplaceBack size v q) = (Z.of_nat (length l) <? size - 1) /\
  holds size (snd (TryEmplaceBack size v q))
    (if Z.of_nat (length l) <? size - 1 then l ++ [v] else l).
Proof.
  intros (Hrd & Hwr & Hlen & Hocc & Hl).
  assert (Hlt : Z.of_nat (length l) <= size - 1).
  { rewrite <- Hocc. apply occupied_lt_size. }
  unfold occupied in Hocc. rewrite ring_distance in Hocc by assumption.
  unfold TryEmplaceBack. rewrite next_index by assumption.
  destruct (Z.ltb_spec (Z.of_nat (length l)) (size - 1)) as [Hroom|Hfull].
  - destruct (Z.eqb_spec (if wr_idx q + 1 =? size then 0 else wr_idx q + 1)
                (rd_idx q)) as [E|E]; [exfalso; compare_all|].
    simpl. split; [reflexivity|].
    unfold holds, occupied; simpl.
    rewrite ring_distance by compare_all.
    rewrite length_insert, length_app; simpl.
    repeat split; try (compare_all; fail).
    intros j x Hj.
    assert (Hjl : (j < length l \/ j = length l)%nat).
    { apply lookup_lt_Some in Hj. rewrite length_app in Hj.
      simpl in Hj. lia. }
    destruct Hjl as [Hjl| ->].
    + rewrite lookup_app_l in Hj by assumption.
      rewrite list_lookup_insert_ne; [apply Hl, Hj|].
      rewrite (ring_offset (rd_idx q) (Z.of_nat j)) by lia. compare_all.
    + rewrite lookup_app_r, Nat.sub_diag in Hj by lia.
      injection Hj as <-.
      replace (Z.to_nat ((rd_idx q + Z.of_nat (length l)) mod size))
        with (Z.to_nat (wr_idx q)).
      * apply list_lookup_insert_eq. lia.
      * rewrite (ring_offset (rd_idx q) (Z.of_nat (length l))) by lia.
        compare_all.
  - destruct (Z.eqb_spec (if wr_idx q + 1 =? size then 0 else wr_idx q + 1)
                (rd_idx q)) as [E|E]; [|exfalso; compare_all].
    simpl. split; [reflexivity|].
    unfold holds, occupied. rewrite ring_distance by assumption.
    repeat split; assumption || lia.
Qed.

Lemma holds_step (o : operation T) (q : Queue T) (l : list T) :
  holds size q l -> fifo_allows o l = true ->
  exists r q', perform size o q = Returns (r, q') /\
               seen o q r q' = fst (fifo_step size o l) /\
               holds size q' (snd (fifo_step size o l)).
Proof.
  intros Hq Ha.
  destruct o as [v|v|w|].
  1,2: destruct (holds_TryEmplaceBack v q l Hq) as [Hr Hq'];
    simpl; unfold TryPushBack; do 2 eexists; (split; [reflexivity|]);
    simpl; rewrite Hr;
    destruct (Z.of_nat (length l) <? size - 1); simpl; split;
    reflexivity || assumption.
  all: destruct Hq as (Hrd & Hwr & Hlen & Hocc & Hl);
    assert (Hlt : Z.of_nat (length l) <= size - 1)
      by (rewrite <- Hocc; apply occupied_lt_size);
    unfold occupied in Hocc;
    rewrite ring_distance in Hocc by assumption.
  - simpl in Ha. unfold perform, bind, Front.
    destruct l as [|x l].
    + apply Z.eqb_eq in Ha. subst w. simpl in Hocc.
      destruct (Z.eqb_spec (wr_idx q) (rd_idx q)) as [E|E];
        [|exfalso; compare_all].
      simpl. do 2 eexists. split; [reflexivity|]. split; [reflexivity|].
      unfold holds, occupied. rewrite ring_distance by assumption.
      repeat split; assumption || lia.
    + simpl length in *.
      destruct (Z.eqb_spec (wr_idx q) (rd_idx q)) as [E|E];
        [exfalso; compare_all|].
      simpl. do 2 eexists. split; [reflexivity|]. split.
      * unfold seen, deref. simpl.
        specialize (Hl 0%nat x eq_refl). simpl in Hl.
        rewrite Z.add_0_r, Z.mod_small in Hl by lia. rewrite Hl. reflexivity.
      * unfold holds, occupied. rewrite ring_distance by assumption.
        repeat split; assumption || lia.
  - destruct l as [|x l]; [discriminate|]. simpl length in *.
    simpl. do 2 eexists. split; [reflexivity|]. split.
    + unfold deref.
      specialize (Hl 0%nat x eq_refl). simpl in Hl.
      rewrite Z.add_0_r, Z.mod_small in Hl by lia. rewrite Hl. reflexivity.
    + unfold holds, occupied, Pop; simpl.
      rewrite next_index by assumption.
      rewrite ring_distance by compare_all.
      rewrite length_insert.
      repeat split; try (compare_all; fail).
      intros j y Hj.
      assert (Hjl : (j < length l)%nat) by (apply lookup_lt_Some in Hj; lia).
      specialize (Hl (S j) y Hj).
      rewrite list_lookup_insert_ne.
      * rewrite <- Hl. f_equal. f_equal.
        rewrite (ring_offset (rd_idx q) (Z.of_nat (S j))) by lia.
        rewrite ring_offset by compare_all. compare_all.
      * rewrite ring_offset by compare_all. compare_all.
Qed.

Lemma fifo_refines (ops : list (operation T)) :
  forall (q : Queue T) (l : list T),
    holds size q l -> fifo_allows_all size ops l = true ->
    observe size ops q = fifo_observe size ops l.
Proof.
  induction ops as [|o ops IH]; simpl; intros q l Hq Ha; [reflexivity|].
  apply andb_prop in Ha as [Ho Hops].
  destruct (holds_step o q l Hq Ho) as (r & q' & -> & Hseen & Hq').
  rewrite Hseen. f_equal. apply IH; assumption.
Qed.

(** X1: First in, first out, as long as [Pop] is called on elements only and
    [Front] does not wait on an empty queue. *)
Lemma FIFO_within_contract (h : Z) (ops : list (operation T)) :
  fifo_allows_all size ops [] = true ->
  observe size ops (fresh size h) = fifo_observe size ops [].
Proof.
  intros Ha. apply fifo_refines; [apply holds_fresh | exact Ha].
Qed.

(** C4: on every queue that some sequence of calls leaves, at most
    [size - 1] elements are resident, and with [size - 1] resident
    [TryEmplaceBack] returns false and changes nothing. *)
Theorem C4_capacity_is_size_minus_one (q : Queue T) (v : T) :
  reachable size q ->
  resident q <= size - 1 /\
  (resident q = size - 1 -> TryEmplaceBack size v q = (false, q)).
Proof.
  intros Hq. apply wf_reachable in Hq.
  pose proof (resident_le_occupied q Hq) as Hle.
  pose proof (occupied_lt_size q) as Hocc.
  split; [lia|]. intros Hres.
  apply TryEmplaceBack_full, occupied_full; [assumption | lia].
Qed.

End Ring.

Section Calls.
Context `{cfg : KernelConfig}.
Context {T : Type}.
Variable size : Z.

(** C6: on a full queue [TryEmplaceBack] (and [TryPushBack]) returns
    false and leaves the whole queue as it was: no slot is constructed,
    no index moves, the semaphore keeps its count. *)
Theorem C6_full_queue_rejects_without_effect (q : Queue T) (v : T) :
  full size q ->
  TryEmplaceBack size v q = (false, q) /\
  TryPushBack size v q = (false, q) /\
  lifetimes (snd (TryEmplaceBack size v q)) = lifetimes q /\
  buffer (snd (TryEmplaceBack size v q)) = buffer q /\
  wr_idx (snd (TryEmplaceBack size v q)) = wr_idx q /\
  rd_idx (snd (TryEmplaceBack size v q)) = rd_idx q /\
  Sync.GetCount (semaphore (snd (TryEmplaceBack size v q)))
  = Sync.GetCount (semaphore q).
Proof.
  intros Hfull. unfold TryPushBack.
  rewrite (TryEmplaceBack_full size q v Hfull). simpl. auto 10.
Qed.

(** C9: on every queue [Pop] leaves the semaphore and the write index
    alone; it runs the destructor on the slot under the read index,
    whatever that slot holds, leaves the other slots alone, and moves the
    read index one slot on.  It makes no emptiness check: on an empty
    queue that calls have led to, the slot under the read index holds no
    element, and the same happens. *)
Theorem C9_Pop_touches_read_side_only (q : Queue T) :
  semaphore (Pop size q) = semaphore q /\
  Sync.GetCount (semaphore (Pop size q)) = Sync.GetCount (semaphore q) /\
  wr_idx (Pop size q) = wr_idx q /\
  buffer (Pop size q) = <[Z.to_nat (rd_idx q) := None]> (buffer q) /\
  (forall i : nat, i <> Z.to_nat (rd_idx q) ->
                   buffer (Pop size q) !! i = buffer q !! i) /\
  lifetimes (Pop size q) = lifetimes q ++ [destroy_at (rd_idx q)] /\
  rd_idx (Pop size q)
  = (let rd := size_t_wrap (rd_idx q + 1) in if rd =? size then 0 else rd) /\
  (0 < size <= SIZE_MAX -> reachable size q ->
   rd_idx (Pop size q) = (rd_idx q + 1) mod size /\
   (empty q -> deref q (rd_idx q) = None)).
Proof.
  repeat split; try reflexivity.
  - intros i Hi. simpl. apply list_lookup_insert_ne. congruence.
  - apply rd_idx_Pop; [assumption|]. apply wf_reachable; assumption.
  - intros He. apply (empty_has_no_element size); try assumption.
    apply wf_reachable; assumption.
Qed.

(** *** The semaphore count *)

Lemma counted_fresh (h : Z) :
  0 < size <= SIZE_MAX -> counted size (fresh (T := T) size h).
Proof.
  intros Hsize. split; [apply wf_fresh, Hsize|].
  unfold occupied; simpl. rewrite Z.mod_0_l by lia. auto.
Qed.

Lemma counted_perform (o : operation T) (q : Queue T) (r : result)
    (q' : Queue T) :
  0 < size <= SIZE_MAX ->
  is_Pop o = false ->
  perform size o q = Returns (r, q') -> counted size q -> counted size q'.
Proof.
  intros Hsize Ho H (Hwf & Hrd & Hlen & Hcount).
  assert (Hwf' : wf size q') by (eapply wf_perform; eauto).
  split; [exact Hwf'|]. clear Hwf'.
  destruct Hwf as (_ & Hwr & _).
  unfold occupied, Sync.GetCount, uxSemaphoreGetCount in *.
  rewrite Hrd, Z.sub_0_r, Z.mod_small in Hcount by lia.
  destruct o as [v|v|w|]; simpl in *; try discriminate.
  1,2: unfold TryPushBack, TryEmplaceBack in H;
    rewrite (next_index size Hsize) in H by assumption;
    rewrite Hrd in H;
    destruct (Z.eqb_spec (wr_idx q + 1) size) as [E|E];
    [ rewrite Z.eqb_refl in H; injection H as <- <-;
      rewrite Hrd, Z.sub_0_r, Z.mod_small by lia; auto
    | destruct (Z.eqb_spec (wr_idx q + 1) 0); [lia|];
      injection H as <- <-; simpl;
      unfold Sync.Give, Sync.Unlock, xSemaphoreGive;
      destruct (Z.ltb_spec (uxMessagesWaiting (Sync.object (semaphore q)))
                  (uxLength (Sync.object (semaphore q)))); [|lia];
      simpl; rewrite Z.sub_0_r, Z.mod_small by lia; auto with zarith ].
  unfold bind, Front, Sync.Take, Sync.Lock, xSemaphoreTake in H.
  rewrite Hrd in H.
  destruct (Z.eqb_spec (wr_idx q) 0) as [E|E].
  - destruct (negb (w =? 0)).
    + destruct (Z.ltb_spec 0 (uxMessagesWaiting (Sync.object (semaphore q))));
        [lia|].
      destruct (pdMS_TO_TICKS w =? portMAX_DELAY); try discriminate.
      simpl in H. injection H as <- <-. simpl.
      rewrite ?Hrd, ?Z.sub_0_r, ?Z.mod_small by lia. auto.
    + injection H as <- <-.
      rewrite ?Hrd, ?Z.sub_0_r, ?Z.mod_small by lia. auto.
  - injection H as <- <-.
    rewrite ?Hrd, ?Z.sub_0_r, ?Z.mod_small by lia. auto.
Qed.

(** X2: Without [Pop], the invariant of the specification holds after every
    call. *)
Lemma count_tracks_without_Pop (ops : list (operation T)) :
  0 < size <= SIZE_MAX ->
  forallb (fun o => negb (is_Pop o)) ops = true ->
  forall (q : Queue T) (rs : list result) (q' : Queue T),
    counted size q ->
    perform_all size ops q = Returns (rs, q') ->
    occupied size q' = Sync.GetCount (semaphore q').
Proof.
  intros Hsize. induction ops as [|o ops IH]; simpl; intros Hops q rs q' Hq H.
  - injection H as <- <-. apply Hq.
  - apply andb_prop in Hops as [Ho Hops]. apply negb_true_iff in Ho.
    unfold bind in H.
    destruct (perform size o q) as [[r q1]| |] eqn:E; try discriminate.
    destruct (perform_all size ops q1) as [[rs1 q2]| |] eqn:E2;
      try discriminate.
    injection H as <- <-.
    apply (IH Hops q1 rs1 q2); [|assumption].
    eapply counted_perform; eassumption.
Qed.

(** Each [Pop] of an element leaves the count one above the number of
    occupied slots. *)
Lemma Pop_leaves_count_behind (q : Queue T) :
  0 < size <= SIZE_MAX ->
  wf size q -> ~ empty q ->
  occupied size q = Sync.GetCount (semaphore q) ->
  occupied size (Pop size q) + 1 = Sync.GetCount (semaphore (Pop size q)).
Proof.
  intros Hsize (Hrd & Hwr & _) Hne Hinv. unfold empty in Hne.
  unfold occupied in *. simpl. rewrite (next_index size Hsize) by assumption.
  rewrite <- Hinv.
  rewrite (ring_distance size Hsize (wr_idx q) (rd_idx q)) by assumption.
  rewrite (ring_distance size Hsize) by compare_all. compare_all.
Qed.

(** X3: With a count left behind, [Front] with a wait on an empty queue takes
    the semaphore at once and returns the slot under the read index,
    which holds no element. *)
Lemma Front_on_empty_with_count (q : Queue T) (wait_ms : Z) :
  wf size q -> empty q -> wait_ms <> 0 ->
  0 < Sync.GetCount (semaphore q) ->
  exists q', Front wait_ms q = Returns (Some (rd_idx q), q') /\
             deref q' (rd_idx q) = None /\
             Sync.GetCount (semaphore q') = Sync.GetCount (semaphore q) - 1.
Proof.
  intros Hq He Hw Hc.
  pose proof (empty_has_no_element size q Hq He (rd_idx q)) as Hd.
  unfold empty in He.
  unfold Front, Sync.Take, Sync.Lock, xSemaphoreTake.
  unfold Sync.GetCount, uxSemaphoreGetCount in *.
  rewrite He, Z.eqb_refl.
  destruct (Z.eqb_spec wait_ms 0) as [|_]; [contradiction|]. simpl negb.
  destruct (Z.ltb_spec 0 (uxMessagesWaiting (Sync.object (semaphore q))));
    [|lia].
  simpl. eexists. split; [reflexivity|]. split; [|reflexivity].
  unfold deref in *. simpl. exact Hd.
Qed.

End Calls.
End QueueFacts.

(** ** Runs of the queue of the default size *)

Module QueueRuns.
Import Kernel BoundedQueue.

(** C1: on a fresh queue of size 2, [TryEmplaceBack], [Front] and [Pop]
    leave the queue with no slot occupied while the semaphore still
    counts one. *)
Theorem C1_count_stays_after_Pop (cfg : KernelConfig) :
  exists q : Queue Z,
    perform_all 2 [op_TryEmplaceBack 7; op_Front 0; op_Pop] (fresh 2 1)
    = Returns ([res_bool true; res_ptr (Some 0); res_void], q) /\
    occupied 2 q = 0 /\
    Sync.GetCount (semaphore q) = 1.
Proof.
  eexists. split; [vm_compute; reflexivity|]. split; reflexivity.
Qed.

(** C5: one element is emplaced; the consumer calls [Pop] only after a
    [Front] that returned a pointer, and yet it gets three pointers and
    destroys two slots: the second and the third pointer lead to slots
    that hold no element.  The queue of the specification answers the
    fourth call, [Front] on the emptied queue, with [nullptr]. *)
Theorem C5_Front_after_Pop_is_not_FIFO (cfg : KernelConfig) :
  let ops : list (operation Z) :=
    [op_TryEmplaceBack 7; op_Front 0; op_Pop;
     op_Front 5; op_Pop; op_Front 0] in
  (exists q : Queue Z,
     perform_all 2 ops (fresh 2 1)
     = Returns ([res_bool true; res_ptr (Some 0); res_void;
                 res_ptr (Some 1); res_void; res_ptr (Some 0)], q)) /\
  observe 2 ops (fresh 2 1)
  = [emplace_returned 7 true; front_returned (Some (Some 7));
     pop_destroyed (Some 7); front_returned (Some None);
     pop_destroyed None; front_returned (Some None)] /\
  fifo_observe 2 (firstn 4 ops) []
  = [emplace_returned 7 true; front_returned (Some (Some 7));
     pop_destroyed (Some 7); front_returned None].
Proof.
  cbv zeta. split; [eexists; vm_compute; reflexivity|].
  split; vm_compute; reflexivity.
Qed.

(** The scenario of the specification: a queue of size 4 takes 1, 2, 3
    and refuses 4; after one [Pop] it takes 4 and holds 2, 3, 4. *)
Lemma scenario_size_4 (cfg : KernelConfig) :
  let ops : list (operation Z) :=
    [op_TryEmplaceBack 1; op_TryEmplaceBack 2; op_TryEmplaceBack 3;
     op_TryEmplaceBack 4; op_Front 0; op_Pop; op_TryEmplaceBack 4;
     op_Front 0; op_Pop; op_Front 0; op_Pop; op_Front 0; op_Pop;
     op_Front 0] in
  observe 4 ops (fresh 4 1)
  = [emplace_returned 1 true; emplace_returned 2 true;
     emplace_returned 3 true; emplace_returned 4 false;
     front_returned (Some (Some 1)); pop_destroyed (Some 1);
     emplace_returned 4 true;
     front_returned (Some (Some 2)); pop_destroyed (Some 2);
     front_returned (Some (Some 3)); pop_destroyed (Some 3);
     front_returned (Some (Some 4)); pop_destroyed (Some 4);
     front_returned None].
Proof.
  cbv zeta. vm_compute. reflexivity.
Qed.

End QueueRuns.

(** ** The timer *)

Module TimerFacts.
Import Kernel Timers.

Section WithConfig.
Context `{cfg : KernelConfig}.

Lemma Delete_null (w : Z) (t : Timer) (k : kernel) :
  handle t = nullptr -> Delete w t k = Returns (t, k).
Proof.
  destruct t as [h]. simpl. intros ->. reflexivity.
Qed.

Lemma Delete_all_null (waits : list Z) (t : Timer) (k : kernel) :
  handle t = nullptr -> Delete_all waits t k = Returns (t, k).
Proof.
  intros Ht. induction waits as [|w waits IH]; simpl.
  - apply Delete_null, Ht.
  - unfold bind. rewrite (Delete_null w t k Ht). exact IH.
Qed.

Lemma timer_deletes_ask (c : kernel_call) (k : kernel) (r : Z) (k' : kernel) :
  ask c k = Returns (r, k') ->
  timer_deletes k'
  = ((if is_timer_delete c then 1 else 0) + timer_deletes k)%nat.
Proof.
  unfold ask, timer_deletes. intros H. injection H as _ <-. simpl.
  rewrite filter_app, length_app. simpl.
  destruct (is_timer_delete c) eqn:E.
  - rewrite filter_cons_True by assumption. simpl. lia.
  - rewrite filter_cons_False by congruence. simpl. lia.
Qed.

Lemma Delete_returns (w : Z) (t : Timer) (k : kernel)
    (t' : Timer) (k' : kernel) :
  Delete w t k = Returns (t', k') ->
  handle t' = nullptr /\ (timer_deletes k' <= timer_deletes k + 1)%nat.
Proof.
  unfold Delete, bind, configASSERT, ret, assert_failed.
  destruct (negb (handle t =? nullptr)).
  - destruct (ask _ k) as [[r k1]| |] eqn:E; try discriminate.
    apply timer_deletes_ask in E. simpl in E.
    destruct (r =? pdPASS); try discriminate.
    intros H; injection H as <- <-. simpl. split; [reflexivity | lia].
  - intros H; injection H as <- <-. simpl. split; [reflexivity | lia].
Qed.

(** However many [Delete]s precede the destructor, the kernel sees at
    most one [xTimerDelete]. *)
Lemma Delete_all_deletes_once (waits : list Z) (t : Timer) (k : kernel)
    (t' : Timer) (k' : kernel) :
  Delete_all waits t k = Returns (t', k') ->
  (timer_deletes k' <= timer_deletes k + 1)%nat.
Proof.
  destruct waits as [|w waits]; simpl.
  - intros H. apply Delete_returns in H. tauto.
  - unfold bind. destruct (Delete w t k) as [[t1 k1]| |] eqn:E;
      try discriminate.
    apply Delete_returns in E as [Hnull Hcount].
    rewrite (Delete_all_null waits t1 k1 Hnull).
    intros H; injection H as <- <-. exact Hcount.
Qed.

(** C8: once a [Delete] has run, the handle is null, and every further
    [Delete], the destructor included, returns with the timer and the
    kernel as they were: no call reaches the kernel.  That [Delete]
    itself called [xTimerDelete] at most once, and so does any sequence
    of [Delete]s ended by the destructor. *)
Theorem C8_Delete_runs_once (w : Z) (t : Timer) (k : kernel)
    (t' : Timer) (k' : kernel) :
  Delete w t k = Returns (t', k') ->
  handle t' = nullptr /\
  (forall w', Delete w' t' k' = Returns (t', k')) /\
  Timer_dtor t' k' = Returns (t', k') /\
  (forall waits, Delete_all waits t' k' = Returns (t', k')) /\
  (timer_deletes k' <= timer_deletes k + 1)%nat /\
  (forall waits t'' k'',
     Delete_all (w :: waits) t k = Returns (t'', k'') ->
     (timer_deletes k'' <= timer_deletes k + 1)%nat).
Proof.
  intros H. pose proof (Delete_returns _ _ _ _ _ H) as [Hnull Hcount].
  repeat split; try assumption.
  - intros w'. apply Delete_null, Hnull.
  - apply Delete_null, Hnull.
  - intros waits. apply Delete_all_null, Hnull.
  - intros waits t'' k''. apply Delete_all_deletes_once.
Qed.

(** C10: [Start] and [Stop] return nothing.  When the kernel does not
    answer [pdPASS] they halt; otherwise they return, having made their
    one call with the wait converted to ticks. *)
Theorem C10_Start_Stop_halt_when_refused (w : Z) (t : Timer) (k : kernel) :
  (hd 0 (answers k) <> pdPASS ->
   Start w t k = Halts /\ Stop w t k = Halts) /\
  (hd 0 (answers k) = pdPASS ->
   Start w t k
   = Returns (tt, {| answers := tl (answers k);
                     calls := calls k
                              ++ [call_xTimerStart (handle t)
                                    (pdMS_TO_TICKS w)] |}) /\
   Stop w t k
   = Returns (tt, {| answers := tl (answers k);
                     calls := calls k
                              ++ [call_xTimerStop (handle t)
                                    (pdMS_TO_TICKS w)] |})).
Proof.
  unfold Start, Stop, bind, ask, configASSERT, ret, assert_failed.
  split; intros H.
  - destruct (Z.eqb_spec (hd 0 (answers k)) pdPASS); [contradiction|].
    split; reflexivity.
  - rewrite H. split; reflexivity.
Qed.

End WithConfig.
End TimerFacts.

(** ** The theorems at sample inputs *)

Module Witnesses.
Import Kernel Samples.


Lemma C4_witness :
  BoundedQueue.resident three_of_four <= 4 - 1 /\
  (BoundedQueue.resident three_of_four = 4 - 1 ->
   BoundedQueue.TryEmplaceBack 4 4 three_of_four = (false, three_of_four)).
Proof.
  apply (@QueueFacts.C4_capacity_is_size_minus_one dynamic_1000Hz Z 4).
  - unfold SIZE_MAX. lia.
  - exists 1,
      [BoundedQueue.op_TryEmplaceBack 1; BoundedQueue.op_TryEmplaceBack 2;
       BoundedQueue.op_TryEmplaceBack 3],
      [BoundedQueue.res_bool true; BoundedQueue.res_bool true;
       BoundedQueue.res_bool true].
    reflexivity.
Defined.

Lemma C6_witness :
  BoundedQueue.TryEmplaceBack 2 8 one_of_two = (false, one_of_two) /\
  BoundedQueue.TryPushBack 2 8 one_of_two = (false, one_of_two) /\
  BoundedQueue.lifetimes (snd (BoundedQueue.TryEmplaceBack 2 8 one_of_two))
  = BoundedQueue.lifetimes one_of_two /\
  BoundedQueue.buffer (snd (BoundedQueue.TryEmplaceBack 2 8 one_of_two))
  = BoundedQueue.buffer one_of_two /\
  BoundedQueue.wr_idx (snd (BoundedQueue.TryEmplaceBack 2 8 one_of_two))
  = BoundedQueue.wr_idx one_of_two /\
  BoundedQueue.rd_idx (snd (BoundedQueue.TryEmplaceBack 2 8 one_of_two))
  = BoundedQueue.rd_idx one_of_two /\
  Sync.GetCount
    (BoundedQueue.semaphore (snd (BoundedQueue.TryEmplaceBack 2 8 one_of_two)))
  = Sync.GetCount (BoundedQueue.semaphore one_of_two).
Proof.
  apply (@QueueFacts.C6_full_queue_rejects_without_effect Z 2 one_of_two 8).
  reflexivity.
Defined.

Lemma C8_witness :
  let t' := {| Timers.handle := nullptr |} in
  let k' := {| answers := []; calls := [call_xTimerDelete 5 0] |} in
  Timers.handle t' = nullptr /\
  (forall w', @Timers.Delete dynamic_1000Hz w' t' k' = Returns (t', k')) /\
  @Timers.Timer_dtor dynamic_1000Hz t' k' = Returns (t', k') /\
  (forall waits,
     @Timers.Delete_all dynamic_1000Hz waits t' k' = Returns (t', k')) /\
  (timer_deletes k' <= timer_deletes accepting + 1)%nat /\
  (forall waits t'' k'',
     @Timers.Delete_all dynamic_1000Hz (0 :: waits) a_timer accepting
     = Returns (t'', k'') ->
     (timer_deletes k'' <= timer_deletes accepting + 1)%nat).
Proof.
  apply (@TimerFacts.C8_Delete_runs_once dynamic_1000Hz 0 a_timer accepting).
  reflexivity.
Defined.

Lemma C9_witness :
  BoundedQueue.rd_idx (BoundedQueue.Pop 2 popped_one_of_two)
  = (BoundedQueue.rd_idx popped_one_of_two + 1) mod 2 /\
  (BoundedQueue.empty popped_one_of_two ->
   BoundedQueue.deref popped_one_of_two
     (BoundedQueue.rd_idx popped_one_of_two) = None).
Proof.
  pose proof (@QueueFacts.C9_Pop_touches_read_side_only dynamic_1000Hz Z 2
                popped_one_of_two)
    as (_ & _ & _ & _ & _ & _ & _ & Hreach).
  apply Hreach.
  - unfold SIZE_MAX. lia.
  - exists 1, [BoundedQueue.op_TryEmplaceBack 7; BoundedQueue.op_Pop],
      [BoundedQueue.res_bool true; BoundedQueue.res_void].
    reflexivity.
Defined.

Lemma C10_witness :
  @Timers.Start dynamic_1000Hz 0 a_timer refusing = Halts /\
  @Timers.Stop dynamic_1000Hz 0 a_timer refusing = Halts.
Proof.
  apply (proj1 (@TimerFacts.C10_Start_Stop_halt_when_refused
                  dynamic_1000Hz 0 a_timer refusing)).
  discriminate.
Defined.

End Witnesses.

(** * Further properties *)

(** ** The bounded queue, continued *)

Module QueueExtras.
Import Kernel BoundedQueue QueueFacts.

Section Ring.
Context `{cfg : KernelConfig}.
Context {T : Type}.
Variable size : Z.
Hypothesis size_range : 0 < size <= SIZE_MAX.

Lemma live_slots_fill (l : list (option T)) :
  forall (i : nat) (v : T),
    l !! i = Some None ->
    live_slots (<[i := Some v]> l) = live_slots l + 1.
Proof.
  induction l as [|x l IH]; intros i v H; [discriminate|].
  destruct i as [|i]; simpl in *.
  - injection H as ->. lia.
  - rewrite (IH i v H). destruct x; lia.
Qed.

Lemma write_slot_is_free (q : Queue T) :
  wf size q -> buffer q !! Z.to_nat (wr_idx q) = Some None.
Proof.
  intros (Hrd & Hwr & Hlen & Hlive).
  destruct (buffer q !! Z.to_nat (wr_idx q)) as [[x|]|] eqn:E.
  - apply Hlive in E. rewrite Z2Nat.id in E by lia.
    unfold in_range in E. compare_all.
  - reflexivity.
  - apply lookup_ge_None in E. lia.
Qed.

(** X4: An emplacement never lands on an element: on every queue that calls
    have led to, the slot under the write index is free; when the queue
    is not full the call succeeds, the value sits in that slot, one more
    element is resident, one more slot is occupied and every other slot
    is as before. *)
Theorem TryEmplaceBack_fills_a_free_slot (q : Queue T) (v : T) :
  reachable size q -> ~ full size q ->
  deref q (wr_idx q) = None /\
  fst (TryEmplaceBack size v q) = true /\
  deref (snd (TryEmplaceBack size v q)) (wr_idx q) = Some v /\
  resident (snd (TryEmplaceBack size v q)) = resident q + 1 /\
  occupied size (snd (TryEmplaceBack size v q)) = occupied size q + 1 /\
  (forall i : Z, 0 <= i -> i <> wr_idx q ->
                 deref (snd (TryEmplaceBack size v q)) i = deref q i).
Proof.
  intros Hq Hroom. apply (wf_reachable size size_range) in Hq.
  pose proof (write_slot_is_free q Hq) as Hfree.
  destruct Hq as (Hrd & Hwr & Hlen & Hlive).
  unfold full in Hroom. unfold TryEmplaceBack, deref, resident, occupied.
  rewrite (next_index size size_range) in * by assumption.
  destruct (Z.eqb_spec (if wr_idx q + 1 =? size then 0 else wr_idx q + 1)
              (rd_idx q)) as [E|E]; [contradiction|]. simpl.
  rewrite Hfree.
  rewrite list_lookup_insert_eq by lia.
  rewrite (live_slots_fill _ _ v Hfree).
  rewrite (ring_distance size size_range) by compare_all.
  rewrite (ring_distance size size_range (wr_idx q) (rd_idx q)) by assumption.
  repeat split; try (compare_all; fail).
  intros i Hi Hne. rewrite list_lookup_insert_ne by lia. reflexivity.
Qed.

(** X5: [TryEmplaceBack] succeeds exactly when fewer than [size - 1] slots
    are occupied, and after a success [Front] finds the queue not empty:
    without waiting it returns the slot under the read index and changes
    nothing. *)
Theorem TryEmplaceBack_succeeds_iff_room (q : Queue T) (v : T) (wait_ms : Z) :
  reachable size q ->
  (fst (TryEmplaceBack size v q) = true <-> occupied size q < size - 1) /\
  (fst (TryEmplaceBack size v q) = true ->
   Front wait_ms (snd (TryEmplaceBack size v q))
   = Returns (Some (rd_idx q), snd (TryEmplaceBack size v q))).
Proof.
  intros Hq. apply (wf_reachable size size_range) in Hq.
  destruct Hq as (Hrd & Hwr & Hlen & Hlive).
  unfold TryEmplaceBack, occupied, Front.
  rewrite (next_index size size_range) by assumption.
  rewrite (ring_distance size size_range) by assumption.
  destruct (Z.eqb_spec (if wr_idx q + 1 =? size then 0 else wr_idx q + 1)
              (rd_idx q)) as [E|E]; simpl.
  - split; [|discriminate]. split; [discriminate|]. compare_all.
  - split; [split; [|reflexivity]; intros _; compare_all|].
    intros _.
    destruct (Z.eqb_spec (if wr_idx q + 1 =? size then 0 else wr_idx q + 1)
                (rd_idx q)); [contradiction|reflexivity].
Qed.

End Ring.

(** X6: [Queue<T, 1>] never holds an element: on every queue of size 1 that
    calls have led to, [TryEmplaceBack] and [TryPushBack] return false
    and change nothing, and [Front] without a wait returns [nullptr]. *)
Theorem size_1_takes_nothing `{cfg : KernelConfig} {T : Type}
    (q : Queue T) (v : T) :
  reachable 1 q ->
  TryEmplaceBack 1 v q = (false, q) /\
  TryPushBack 1 v q = (false, q) /\
  resident q = 0 /\
  Front 0 q = Returns (None, q).
Proof.
  intros Hq.
  assert (Hsize : 0 < 1 <= SIZE_MAX) by (unfold SIZE_MAX; lia).
  pose proof (Hle := resident_le_occupied 1 Hsize q).
  apply (wf_reachable 1 Hsize) in Hq.
  pose proof (occupied_lt_size 1 Hsize q) as Hocc.
  pose proof (live_slots_bounds (buffer q)) as Hb.
  specialize (Hle Hq). unfold resident in *.
  assert (Hfull : full 1 q).
  { apply (occupied_full 1 Hsize); [assumption | lia]. }
  unfold TryPushBack. rewrite (TryEmplaceBack_full 1 q v Hfull).
  repeat split; [lia|].
  destruct Hq as (Hrd & Hwr & _). unfold Front.
  replace (wr_idx q) with (rd_idx q) by lia.
  rewrite Z.eqb_refl. reflexivity.
Qed.

Section Calls.
Context `{cfg : KernelConfig}.
Context {T : Type}.
Variable size : Z.


(** X8: Construction of a queue: when the constructor returns, the queue is
    the fresh one for the handle of its semaphore, it is empty and
    [Front] without a wait returns [nullptr]; in a dynamic-allocation
    build the handle is not null, and the constructor halts when the
    kernel refuses one of the three creations it asks for. *)
Theorem Queue_ctor_returns_fresh (k : kernel) :
  (forall (q : Queue T) k', Queue_ctor size k = Returns (q, k') ->
                q = fresh size (Sync.handle (semaphore q)) /\
                empty q /\
                Front 0 q = Returns (None, q) /\
                (configSUPPORT_STATIC_ALLOCATION = false ->
                 Sync.handle (semaphore q) <> nullptr)) /\
  (configSUPPORT_STATIC_ALLOCATION = false ->
   refuses k 0 \/ refuses k 1 \/ refuses k 2 ->
   Queue_ctor (T := T) size k = Halts).
Proof.
  unfold Queue_ctor, bind, ret. split.
  - intros q k' H.
    destruct (Sync.CountingSemaphore_ctor 0 size k) as [[s k1]| |] eqn:E;
      try discriminate.
    injection H as <- <-. simpl.
    assert (Hobj : Sync.object s = counting_obj size 0).
    { revert E. ConstructionFacts.run_ctor.
      destruct configSUPPORT_STATIC_ALLOCATION; simpl;
        ConstructionFacts.by_answer; intros E; try discriminate E;
        injection E as <- _; reflexivity. }
    split; [|split; [reflexivity|split; [reflexivity|]]].
    + unfold fresh. simpl. rewrite <- Hobj. destruct s; reflexivity.
    + intros Hdyn.
      apply (proj2 (ConstructionFacts.CountingSemaphore_ctor_dynamic
                      0 size k Hdyn) s k1 E).
  - intros Hdyn Href.
    rewrite (proj1 (ConstructionFacts.CountingSemaphore_ctor_dynamic
                      0 size k Hdyn) Href).
    reflexivity.
Qed.

End Calls.
End QueueExtras.

(** ** Mutexes and semaphores, continued *)

Module SyncExtras.
Import Kernel Sync SyncRuns.

Section WithConfig.
Context `{cfg : KernelConfig}.

(** What a constructor that returned has made is the creation's object. *)
Lemma Mutex_ctor_object (k : kernel) (m : Mutex) (k' : kernel) :
  Mutex_ctor k = Returns (m, k') -> object m = mutex_obj.
Proof.
  ConstructionFacts.run_ctor.
  destruct configSUPPORT_STATIC_ALLOCATION; simpl;
    ConstructionFacts.by_answer; intros E; try discriminate E;
    injection E as <- _; reflexivity.
Qed.

Lemma BinarySemaphore_ctor_object (k : kernel) (s : BinarySemaphore)
    (k' : kernel) :
  BinarySemaphore_ctor k = Returns (s, k') -> object s = binary_obj.
Proof.
  ConstructionFacts.run_ctor.
  destruct configSUPPORT_STATIC_ALLOCATION; simpl;
    ConstructionFacts.by_answer; intros E; try discriminate E;
    injection E as <- _; reflexivity.
Qed.

Lemma CountingSemaphore_ctor_object (initial max : Z) (k : kernel)
    (s : CountingSemaphore) (k' : kernel) :
  CountingSemaphore_ctor initial max k = Returns (s, k') ->
  object s = counting_obj max initial.
Proof.
  ConstructionFacts.run_ctor.
  destruct configSUPPORT_STATIC_ALLOCATION; simpl;
    ConstructionFacts.by_answer; intros E; try discriminate E;
    injection E as <- _; reflexivity.
Qed.

(** X10: A mutex comes out of its constructor free: [Unlock] on it reports
    false and changes nothing; [Lock] obtains it at once whatever the
    wait, after which a second [Lock] with a finite wait reports false,
    and [Unlock] gives back the mutex as constructed. *)
Theorem constructed_Mutex_is_free (k : kernel) (m : Mutex) (k' : kernel)
    (wait_ms : Z) :
  Mutex_ctor k = Returns (m, k') ->
  Unlock m = (false, m) /\
  exists held,
    Lock wait_ms m = Returns (true, held) /\
    LockFromISR m = (true, held) /\
    LockFromISR held = (false, held) /\
    (pdMS_TO_TICKS wait_ms <> portMAX_DELAY ->
     Lock wait_ms held = Returns (false, held)) /\
    Unlock held = (true, m) /\
    UnlockFromISR held = (true, m).
Proof.
  intros H. apply Mutex_ctor_object in H. destruct m as [h o].
  simpl in H. subst o.
  split; [reflexivity|].
  exists {| handle := h;
            object := {| uxMessagesWaiting := 0; uxLength := 1 |} |}.
  repeat split.
  intros Hw. unfold Lock, xSemaphoreTake. simpl.
  destruct (Z.eqb_spec (pdMS_TO_TICKS wait_ms) portMAX_DELAY);
    [contradiction|reflexivity].
Qed.

(** X11: A binary semaphore comes out of its constructor not given: a take
    from an interrupt and a take whose wait is converted to no tick fail
    at once; [Give] succeeds once and fails the second time; after the
    give, [Take] succeeds at once whatever the wait and leaves the
    semaphore as constructed. *)
Theorem constructed_BinarySemaphore_is_empty (k : kernel)
    (s : BinarySemaphore) (k' : kernel) (wait_ms : Z) :
  BinarySemaphore_ctor k = Returns (s, k') ->
  TakeFromISR s = (false, s) /\
  (pdMS_TO_TICKS wait_ms = 0 -> portMAX_DELAY <> 0 ->
   Take wait_ms s = Returns (false, s)) /\
  exists given,
    Give s = (true, given) /\
    Give given = (false, given) /\
    GiveFromISR given = (false, given) /\
    Take wait_ms given = Returns (true, s) /\
    TakeFromISR given = (true, s).
Proof.
  intros H. apply BinarySemaphore_ctor_object in H. destruct s as [h o].
  simpl in H. subst o.
  split; [reflexivity|]. split.
  - intros Hw Hmax. unfold Take, Lock, xSemaphoreTake. simpl.
    rewrite Hw. destruct (Z.eqb_spec 0 portMAX_DELAY) as [E|E];
      [symmetry in E; contradiction|reflexivity].
  - eexists. repeat split.
Qed.

Lemma Give_count (s : BinarySemaphore) :
  Give s
  = (uxMessagesWaiting (object s) <? uxLength (object s),
     {| handle := handle s;
        object :=
          {| uxMessagesWaiting :=
               if uxMessagesWaiting (object s) <? uxLength (object s)
               then uxMessagesWaiting (object s) + 1
               else uxMessagesWaiting (object s);
             uxLength := uxLength (object s) |} |}).
Proof.
  unfold Give, Unlock, xSemaphoreGive. destruct s as [h [c len]]. simpl.
  destruct (c <? len); reflexivity.
Qed.

Lemma Give_times_count (n : nat) :
  forall s : CountingSemaphore,
    uxMessagesWaiting (object s) <= uxLength (object s) ->
    GetCount (snd (Give_times n s))
    = Z.min (uxLength (object s)) (uxMessagesWaiting (object s) + Z.of_nat n) /\
    uxLength (object (snd (Give_times n s))) = uxLength (object s) /\
    length (fst (Give_times n s)) = n /\
    forall i : nat,
      (i < n)%nat ->
      nth i (fst (Give_times n s)) false
      = (uxMessagesWaiting (object s) + Z.of_nat i <? uxLength (object s)).
Proof.
  induction n as [|n IH]; intros s Hs.
  - simpl. unfold GetCount, uxSemaphoreGetCount.
    repeat split; lia.
  - cbn [Give_times fst snd]. rewrite Give_count. cbn [fst snd].
    set (s1 := {| handle := handle s; object := _ |}).
    assert (Hs1 : uxMessagesWaiting (object s1) <= uxLength (object s1)).
    { unfold s1; simpl.
      destruct (Z.ltb_spec (uxMessagesWaiting (object s))
                  (uxLength (object s))); lia. }
    destruct (IH s1 Hs1) as (Hc & Hl & Hn & Hf).
    rewrite Hc, Hl. unfold s1 at 1 2 3; simpl.
    repeat split.
    + destruct (Z.ltb_spec (uxMessagesWaiting (object s))
                  (uxLength (object s))); lia.
    + rewrite Hn. reflexivity.
    + intros i Hi. destruct i as [|i]; simpl.
      * rewrite Z.add_0_r. reflexivity.
      * rewrite Hf by lia. unfold s1; simpl.
        destruct (Z.ltb_spec (uxMessagesWaiting (object s))
                    (uxLength (object s)));
          destruct (Z.ltb_spec (uxMessagesWaiting (object s) + 1 + Z.of_nat i)
                      (uxLength (object s)));
          destruct (Z.ltb_spec (uxMessagesWaiting (object s) + Z.of_nat i)
                      (uxLength (object s)));
          destruct (Z.ltb_spec (uxMessagesWaiting (object s) + Z.of_nat (S i))
                      (uxLength (object s)));
          try reflexivity; lia.
Qed.

(** X12: A counting semaphore constructed with [0 <= initial <= max] and given
    [n] times in a row counts [min max (initial + n)]: the [i]-th give
    (from 0) succeeds exactly when [initial + i < max], and the gives
    beyond the maximum report false. *)
Theorem CountingSemaphore_gives_up_to_max (initial max : Z) (k : kernel)
    (s : CountingSemaphore) (k' : kernel) (n : nat) :
  0 <= initial <= max ->
  CountingSemaphore_ctor initial max k = Returns (s, k') ->
  GetCount s = initial /\
  GetCount (snd (Give_times n s)) = Z.min max (initial + Z.of_nat n) /\
  length (fst (Give_times n s)) = n /\
  forall i : nat,
    (i < n)%nat ->
    nth i (fst (Give_times n s)) false = (initial + Z.of_nat i <? max).
Proof.
  intros Hrange H. apply CountingSemaphore_ctor_object in H.
  assert (Hs : uxMessagesWaiting (object s) <= uxLength (object s))
    by (rewrite H; simpl; lia).
  destruct (Give_times_count n s Hs) as (Hc & _ & Hn & Hf).
  rewrite H in *. simpl in *.
  split; [unfold GetCount; rewrite H; reflexivity|].
  repeat split; assumption.
Qed.

(** X13: Whatever calls are made on it, a semaphore keeps its count between 0
    and its maximum, and keeps its maximum and its handle. *)
Theorem count_stays_in_bounds (cs : list call) :
  forall (m : Mutex) (rs : list bool) (m' : Mutex),
    0 <= uxMessagesWaiting (object m) <= uxLength (object m) ->
    perform_all cs m = Returns (rs, m') ->
    0 <= GetCount m' <= uxLength (object m') /\
    uxLength (object m') = uxLength (object m) /\
    handle m' = handle m /\
    length rs = length cs.
Proof.
  induction cs as [|c cs IH]; simpl; intros m rs m' Hm H.
  - injection H as <- <-. unfold GetCount, uxSemaphoreGetCount. auto.
  - unfold bind in H.
    destruct (perform c m) as [[r m1]| |] eqn:E; try discriminate.
    destruct (perform_all cs m1) as [[rs1 m2]| |] eqn:E2; try discriminate.
    injection H as <- <-.
    assert (Hm1 : 0 <= uxMessagesWaiting (object m1) <= uxLength (object m1)
                  /\ uxLength (object m1) = uxLength (object m)
                  /\ handle m1 = handle m).
    { destruct m as [h [n len]]. simpl in Hm.
      destruct c as [w| | |]; simpl in E;
        unfold Lock, Unlock, LockFromISR, UnlockFromISR, xSemaphoreTake,
          xSemaphoreGive, xSemaphoreGiveFromISR, xSemaphoreTakeFromISR,
          xSemaphoreGive in E; simpl in E;
        repeat match type of E with
          | context [?a <? ?b] => destruct (Z.ltb_spec a b)
          | context [?a =? ?b] => destruct (Z.eqb_spec a b)
          end; simpl in E; try discriminate E;
        injection E as <- <-; simpl; lia. }
    destruct Hm1 as (Hb & Hl & Hh).
    destruct (IH m1 rs1 m2 Hb E2) as (Hc & Hl2 & Hh2 & Hn).
    simpl. repeat split; try (apply Hc); congruence.
Qed.

(** X14: The destructor of a mutex or semaphore asks the kernel to delete its
    handle once, and only a handle that is not null; afterwards the
    handle is null and a further destruction calls nothing. *)
Theorem Mutex_dtor_deletes_once (m : Mutex) (k : kernel) :
  Mutex_dtor m k
  = Returns ({| handle := nullptr; object := object m |},
             if handle m =? nullptr then k
             else {| answers := answers k;
                     calls := calls k ++ [call_vSemaphoreDelete (handle m)] |})
  /\
  (forall k1, Mutex_dtor {| handle := nullptr; object := object m |} k1
              = Returns ({| handle := nullptr; object := object m |}, k1)).
Proof.
  unfold Mutex_dtor, bind, tell, ret. simpl.
  split; [|reflexivity].
  destruct (handle m =? nullptr); reflexivity.
Qed.

(** X15: In a dynamic-allocation build, constructing a counting semaphore asks
    the kernel for a mutex, a binary semaphore and a counting semaphore,
    in this order, and keeps the handle of the last; the destructor
    deletes that handle only, so the first two objects are never
    deleted. *)
Theorem CountingSemaphore_life_deletes_last_only (initial max : Z)
    (k : kernel) (h0 h1 h2 : Z) (rest : list Z) :
  configSUPPORT_STATIC_ALLOCATION = false ->
  answers k = h0 :: h1 :: h2 :: rest ->
  h0 <> nullptr -> h1 <> nullptr -> h2 <> nullptr ->
  CountingSemaphore_life initial max k
  = Returns ({| handle := nullptr; object := counting_obj max initial |},
             {| answers := rest;
                calls := calls k
                         ++ [call_xSemaphoreCreateMutex;
                             call_xSemaphoreCreateBinary;
                             call_xSemaphoreCreateCounting max initial;
                             call_vSemaphoreDelete h2] |}).
Proof.
  intros Hdyn Ha H0 H1 H2.
  unfold CountingSemaphore_life, Mutex_dtor, tell.
  apply Z.eqb_neq in H0, H1, H2.
  ConstructionFacts.run_ctor. rewrite Hdyn, Ha. simpl.
  rewrite H0. simpl. rewrite H1. simpl. rewrite H2. simpl.
  rewrite H2. simpl.
  rewrite <- !app_assoc. reflexivity.
Qed.

End WithConfig.
End SyncExtras.

(** ** Tasks, timers and periodic waits *)

Module TaskExtras.
Import Kernel Tasks TaskControl.

Section WithConfig.
Context `{cfg : KernelConfig}.

(** X16: [Task::Delete] asks the kernel to delete the task once, and only a
    handle that is not null; afterwards the handle is null, and a further
    [Delete] or the destructor calls nothing. *)
Theorem Task_Delete_deletes_once (t : Task) (k : kernel) :
  Delete t k
  = Returns ({| handle := nullptr |},
             if handle t =? nullptr then k
             else {| answers := answers k;
                     calls := calls k ++ [call_vTaskDelete (handle t)] |})
  /\
  (forall k1, Delete {| handle := nullptr |} k1
              = Returns ({| handle := nullptr |}, k1)) /\
  (forall k1, Task_dtor {| handle := nullptr |} k1
              = Returns ({| handle := nullptr |}, k1)).
Proof.
  unfold Task_dtor, Delete, bind, tell, ret. simpl.
  split; [|split; reflexivity].
  destruct (handle t =? nullptr); reflexivity.
Qed.

(** X17: Construction of a [DoAsync]: in either build it halts when the kernel
    refuses to create the task; in a dynamic-allocation build also when
    the kernel refuses the mutex or the binary semaphore of the member
    [done]; when it returns, [done] is a binary semaphore that was not
    given. *)
Theorem DoAsync_ctor_checked (stack_size priority : Z) (k : kernel) :
  (refuses k 2 -> DoAsync_ctor stack_size priority k = Halts) /\
  (configSUPPORT_STATIC_ALLOCATION = false ->
   refuses k 0 \/ refuses k 1 ->
   DoAsync_ctor stack_size priority k = Halts) /\
  (forall r k', DoAsync_ctor stack_size priority k = Returns (r, k') ->
                ~ refuses k 2 /\
                Sync.object (done r) = binary_obj /\
                count_of r = 0).
Proof.
  rewrite ConstructionFacts.refuses_0, ConstructionFacts.refuses_1,
    ConstructionFacts.refuses_2.
  unfold DoAsync_ctor, xTaskCreate. ConstructionFacts.run_ctor.
  destruct configSUPPORT_STATIC_ALLOCATION; simpl;
    ConstructionFacts.by_answer;
    (split; [intros; try reflexivity; tauto|]);
    (split; [intros; try reflexivity; try discriminate; tauto|]);
    intros r k' H; try discriminate H; injection H as <- _;
    simpl; rewrite ConstructionFacts.refuses_2; auto.
Qed.

(** X18: In every build and under every schedule the job runs at most once and
    the completion semaphore never counts more than one; when the take of
    the destructor has succeeded, the job has run to completion, the
    spawned task is past its give and the semaphore is empty again. *)
Theorem taken_means_job_done (h : Z) (es : list event) :
  let s := schedule es
             (spawned_system
                {| done := {| Sync.handle := h;
                              Sync.object := binary_obj |} |}) in
  0 <= counter s <= 1 /\
  0 <= count_of (runner s) <= 1 /\
  (owner s = dtor_returned true ->
   counter s = 1 /\ count_of (runner s) = 0 /\
   (spawned s = at_SelfDelete \/ spawned s = self_deleted)).
Proof.
  set (sound := fun s : system =>
    uxLength (Sync.object (done (runner s))) = 1 /\
    match spawned s with
    | at_async_job =>
        counter s = 0 /\ count_of (runner s) = 0 /\
        owner s <> dtor_returned true
    | at_Give =>
        counter s = 1 /\ count_of (runner s) = 0 /\
        owner s <> dtor_returned true
    | at_SelfDelete | self_deleted =>
        counter s = 1 /\
        ((count_of (runner s) = 1 /\ owner s <> dtor_returned true) \/
         (count_of (runner s) = 0 /\ owner s = dtor_returned true))
    end).
  assert (Hstep : forall e s, sound s -> sound (step e s)).
  { intros e [c [[h' [n len]]] sp ow]. unfold sound.
    unfold count_of, Sync.GetCount, uxSemaphoreGetCount; simpl.
    intros [Hlen H]. subst len.
    destruct e as [| |ticks]; simpl.
    - destruct sp; simpl; unfold count_of, Sync.GetCount, Sync.Give,
        Sync.Unlock, xSemaphoreGive, uxSemaphoreGetCount; simpl.
      + intuition lia.
      + destruct H as (-> & -> & Hw). simpl. auto.
      + intuition lia.
      + intuition lia.
    - unfold step_owner, count_of, Sync.GetCount, uxSemaphoreGetCount; simpl.
      destruct ow as [|[ticks_left|]|taken]; simpl;
        destruct (Z.ltb_spec 0 n); simpl;
        try destruct (pdMS_TO_TICKS WAIT_MAX =? portMAX_DELAY); simpl;
        try destruct (pdMS_TO_TICKS WAIT_MAX <=? 0); simpl;
        destruct sp; unfold taken_one, with_done, count_of, Sync.GetCount,
          uxSemaphoreGetCount; simpl in *;
        intuition (try lia; try discriminate; try congruence).
    - unfold step_ticks, count_of, Sync.GetCount, uxSemaphoreGetCount.
      simpl.
      destruct ow as [|[ticks_left|]|taken]; simpl;
        try (split; [reflexivity|assumption]).
      destruct ((0 <? ticks) && (n =? 0)); simpl;
        [destruct (ticks_left <=? ticks); simpl|];
        (split; [reflexivity|]);
        destruct sp; simpl in *;
        intuition (try lia; try discriminate; try congruence). }
  assert (Hrun : forall es s, sound s -> sound (schedule es s)).
  { intros es'. induction es' as [|e es' IH]; simpl; intros s Hs;
      [exact Hs|]. apply IH, Hstep, Hs. }
  intros s.
  assert (Hs : sound s).
  { apply Hrun. unfold sound; simpl. repeat split; discriminate. }
  destruct Hs as [_ Hs].
  destruct (spawned s); intuition (try lia; try discriminate; try congruence).
Qed.

(** X20: [GetState] casts the kernel's [eTaskState] to [TaskState] by its
    number, and the two enumerations begin in a different order: a task
    the kernel reports as running is returned as [Ready], one it reports
    as ready as [Running]; blocked, suspended and deleted come out under
    their own names, and the kernel's invalid state is no enumerator of
    [TaskState]. *)
Theorem GetState_swaps_Ready_and_Running (reported : eTaskState) :
  TaskState_named (GetState reported)
  = match reported with
    | eRunning => Some Ready
    | eReady => Some Running
    | eBlocked => Some Blocked
    | eSuspended => Some Suspended
    | eDeleted => Some Deleted
    | eInvalid => None
    end.
Proof.
  destruct reported; reflexivity.
Qed.

(** X21: The critical section of an interrupt keeps one saved status.  A
    section entered and left hands back to the port the status it got on
    entry.  Of two nested sections both exits hand back the status of the
    inner entry: the status of the outer entry is never restored. *)
Theorem Isr_saves_one_status (i : Isr) (outer inner : Z) (rest : list Z)
    (handed : list Z) :
  let p := {| statuses := outer :: inner :: rest; restored := handed |} in
  (i1 <- Isr_EnterCritical i ;; Isr_ExitCritical i1)%wrapper p
  = Returns ({| uxSavedInterruptStatus := outer |},
             {| statuses := inner :: rest; restored := handed ++ [outer] |})
  /\
  (i1 <- Isr_EnterCritical i ;;
   i2 <- Isr_EnterCritical i1 ;;
   i3 <- Isr_ExitCritical i2 ;;
   Isr_ExitCritical i3)%wrapper p
  = Returns ({| uxSavedInterruptStatus := inner |},
             {| statuses := rest;
                restored := handed ++ [inner; inner] |}).
Proof.
  cbv zeta. unfold Isr_EnterCritical, Isr_ExitCritical,
    taskENTER_CRITICAL_FROM_ISR, taskEXIT_CRITICAL_FROM_ISR, bind, ret.
  simpl. rewrite <- app_assoc. split; reflexivity.
Qed.

End WithConfig.
End TaskExtras.

Module TimerExtras.
Import Kernel Timers.

Section WithConfig.
Context `{cfg : KernelConfig}.

(** X22: [Delete] on a timer whose handle is not null makes one call,
    [xTimerDelete] with the handle and the converted wait: it halts when
    the kernel does not answer [pdPASS], and so does the destructor;
    otherwise it returns with the handle null. *)
Theorem Delete_halts_when_refused (w : Z) (t : Timer) (k : kernel) :
  handle t <> nullptr ->
  (hd 0 (answers k) <> pdPASS ->
   Delete w t k = Halts /\ Timer_dtor t k = Halts) /\
  (hd 0 (answers k) = pdPASS ->
   Delete w t k
   = Returns ({| handle := nullptr |},
              {| answers := tl (answers k);
                 calls := calls k
                          ++ [call_xTimerDelete (handle t)
                                (pdMS_TO_TICKS w)] |})).
Proof.
  intros Ht. apply Z.eqb_neq in Ht.
  unfold Timer_dtor, Delete, bind, ask, configASSERT, ret, assert_failed.
  rewrite Ht. simpl.
  split; intros H.
  - destruct (Z.eqb_spec (hd 0 (answers k)) pdPASS); [contradiction|].
    split; reflexivity.
  - rewrite H. reflexivity.
Qed.

(** X23: [Start] and [Stop] do not look at the handle: after a [Delete] that
    returned they still call the kernel, with a null handle. *)
Theorem commands_after_Delete_pass_null (w w' : Z) (t : Timer) (k : kernel)
    (t' : Timer) (k' : kernel) :
  Delete w t k = Returns (t', k') ->
  hd 0 (answers k') = pdPASS ->
  Start w' t' k'
  = Returns (tt, {| answers := tl (answers k');
                    calls := calls k'
                             ++ [call_xTimerStart nullptr
                                   (pdMS_TO_TICKS w')] |}) /\
  Stop w' t' k'
  = Returns (tt, {| answers := tl (answers k');
                    calls := calls k'
                             ++ [call_xTimerStop nullptr
                                   (pdMS_TO_TICKS w')] |}).
Proof.
  intros H Ha. apply TimerFacts.Delete_returns in H as [Hnull _].
  unfold Start, Stop, bind, ask, configASSERT, ret. rewrite Hnull, Ha.
  split; reflexivity.
Qed.

End WithConfig.
End TimerExtras.

Module PeriodicWaitExtras.
Import Kernel PeriodicWait.

Section WithConfig.
Context `{cfg : KernelConfig}.

Lemma Wait_all_in_range (periods : list Z) :
  forall d : TimerDelay,
    0 <= xLastWakeTime d < 2 ^ 32 ->
    0 <= xLastWakeTime (Wait_all periods d) < 2 ^ 32.
Proof.
  unfold Wait_all.
  induction periods as [|ms periods IH]; intros d Hd; simpl; [exact Hd|].
  apply IH. simpl. unfold vTaskDelayUntil. apply Z.mod_pos_bound. lia.
Qed.

Lemma Wait_all_sum (periods : list Z) :
  forall d : TimerDelay,
    xLastWakeTime (Wait_all periods d) mod 2 ^ 32
    = (xLastWakeTime d
       + fold_right Z.add 0 (map pdMS_TO_TICKS periods)) mod 2 ^ 32.
Proof.
  unfold Wait_all.
  induction periods as [|ms periods IH]; intros d; simpl.
  - rewrite Z.add_0_r. reflexivity.
  - rewrite IH. simpl. unfold vTaskDelayUntil.
    rewrite Zplus_mod_idemp_l. f_equal. lia.
Qed.

(** X24: The reference time of a [TimerDelay] depends on the periods waited
    only: after a [Reset] at tick [t0] and any number of [Wait]s it is
    [t0] plus the converted periods, as a 32-bit tick count, however late
    each [Wait] was called.  A [TimerDelay] constructed without [start]
    counts from tick 0, not from the tick of its construction. *)
Theorem Wait_keeps_the_period (start : bool) (t0 now : Z) (periods : list Z) :
  0 <= t0 < 2 ^ 32 ->
  xLastWakeTime (Wait_all periods (Reset t0 (TimerDelay_ctor start now)))
  = (t0 + fold_right Z.add 0 (map pdMS_TO_TICKS periods)) mod 2 ^ 32 /\
  xLastWakeTime (Wait_all periods (TimerDelay_ctor true t0))
  = (t0 + fold_right Z.add 0 (map pdMS_TO_TICKS periods)) mod 2 ^ 32 /\
  xLastWakeTime (Wait_all periods (TimerDelay_ctor false now))
  = (fold_right Z.add 0 (map pdMS_TO_TICKS periods)) mod 2 ^ 32.
Proof.
  intros Ht0.
  assert (H : forall d : TimerDelay,
             0 <= xLastWakeTime d < 2 ^ 32 ->
             xLastWakeTime (Wait_all periods d)
             = (xLastWakeTime d
                + fold_right Z.add 0 (map pdMS_TO_TICKS periods)) mod 2 ^ 32).
  { intros d Hd. rewrite <- Wait_all_sum.
    symmetry. apply Z.mod_small, Wait_all_in_range, Hd. }
  repeat split.
  - apply (H (Reset t0 (TimerDelay_ctor start now))). simpl. exact Ht0.
  - apply (H (TimerDelay_ctor true t0)). simpl. exact Ht0.
  - rewrite (H (TimerDelay_ctor false now)); simpl; [reflexivity|lia].
Qed.

End WithConfig.
End PeriodicWaitExtras.

(** ** The further properties at sample inputs *)

Module ExtraWitnesses.
Import Kernel Samples.

Lemma one_of_two_reachable :
  @BoundedQueue.reachable dynamic_1000Hz Z 2 one_of_two.
Proof.
  exists 1, [BoundedQueue.op_TryEmplaceBack 7], [BoundedQueue.res_bool true].
  reflexivity.
Qed.

Lemma popped_one_of_two_reachable :
  @BoundedQueue.reachable dynamic_1000Hz Z 2 popped_one_of_two.
Proof.
  exists 1, [BoundedQueue.op_TryEmplaceBack 7; BoundedQueue.op_Pop],
    [BoundedQueue.res_bool true; BoundedQueue.res_void].
  reflexivity.
Qed.

Lemma FIFO_within_contract_witness :
  @BoundedQueue.observe dynamic_1000Hz Z 2
    [BoundedQueue.op_TryEmplaceBack 7; BoundedQueue.op_Front 5;
     BoundedQueue.op_Pop; BoundedQueue.op_Front 0]
    (BoundedQueue.fresh 2 1)
  = BoundedQueue.fifo_observe 2
      [BoundedQueue.op_TryEmplaceBack 7; BoundedQueue.op_Front 5;
       BoundedQueue.op_Pop; BoundedQueue.op_Front 0] [].
Proof.
  apply (@QueueFacts.FIFO_within_contract dynamic_1000Hz Z 2).
  - unfold SIZE_MAX. lia.
  - reflexivity.
Defined.

Lemma count_tracks_without_Pop_witness :
  BoundedQueue.occupied 4 three_of_four
  = Sync.GetCount (BoundedQueue.semaphore three_of_four).
Proof.
  apply (@QueueFacts.count_tracks_without_Pop dynamic_1000Hz Z 4
           [BoundedQueue.op_TryEmplaceBack 1; BoundedQueue.op_TryEmplaceBack 2;
            BoundedQueue.op_TryEmplaceBack 3])
    with (q := BoundedQueue.fresh 4 1)
         (rs := [BoundedQueue.res_bool true; BoundedQueue.res_bool true;
                 BoundedQueue.res_bool true]).
  - unfold SIZE_MAX. lia.
  - reflexivity.
  - apply QueueFacts.counted_fresh. unfold SIZE_MAX. lia.
  - reflexivity.
Defined.

Lemma Front_on_empty_with_count_witness :
  exists q',
    @BoundedQueue.Front dynamic_1000Hz Z 5 popped_one_of_two
    = Returns (Some (BoundedQueue.rd_idx popped_one_of_two), q') /\
    BoundedQueue.deref q' (BoundedQueue.rd_idx popped_one_of_two) = None /\
    Sync.GetCount (BoundedQueue.semaphore q')
    = Sync.GetCount (BoundedQueue.semaphore popped_one_of_two) - 1.
Proof.
  apply (@QueueFacts.Front_on_empty_with_count dynamic_1000Hz Z 2).
  - apply (@QueueFacts.wf_reachable dynamic_1000Hz Z 2);
      [unfold SIZE_MAX; lia|].
    exact popped_one_of_two_reachable.
  - reflexivity.
  - discriminate.
  - reflexivity.
Defined.

Lemma TryEmplaceBack_fills_a_free_slot_witness :
  BoundedQueue.deref popped_one_of_two
    (BoundedQueue.wr_idx popped_one_of_two) = None /\
  fst (BoundedQueue.TryEmplaceBack 2 9 popped_one_of_two) = true /\
  BoundedQueue.deref (snd (BoundedQueue.TryEmplaceBack 2 9 popped_one_of_two))
    (BoundedQueue.wr_idx popped_one_of_two) = Some 9 /\
  BoundedQueue.resident (snd (BoundedQueue.TryEmplaceBack 2 9 popped_one_of_two))
  = BoundedQueue.resident popped_one_of_two + 1 /\
  BoundedQueue.occupied 2 (snd (BoundedQueue.TryEmplaceBack 2 9 popped_one_of_two))
  = BoundedQueue.occupied 2 popped_one_of_two + 1 /\
  (forall i : Z,
     0 <= i -> i <> BoundedQueue.wr_idx popped_one_of_two ->
     BoundedQueue.deref (snd (BoundedQueue.TryEmplaceBack 2 9 popped_one_of_two)) i
     = BoundedQueue.deref popped_one_of_two i).
Proof.
  apply (@QueueExtras.TryEmplaceBack_fills_a_free_slot dynamic_1000Hz Z 2).
  - unfold SIZE_MAX. lia.
  - exact popped_one_of_two_reachable.
  - unfold BoundedQueue.full. simpl. discriminate.
Defined.

Lemma TryEmplaceBack_succeeds_iff_room_witness :
  (fst (BoundedQueue.TryEmplaceBack 2 9 one_of_two) = true
   <-> BoundedQueue.occupied 2 one_of_two < 2 - 1) /\
  (fst (BoundedQueue.TryEmplaceBack 2 9 one_of_two) = true ->
   @BoundedQueue.Front dynamic_1000Hz Z 3
     (snd (BoundedQueue.TryEmplaceBack 2 9 one_of_two))
   = Returns (Some (BoundedQueue.rd_idx one_of_two),
              snd (BoundedQueue.TryEmplaceBack 2 9 one_of_two))).
Proof.
  apply (@QueueExtras.TryEmplaceBack_succeeds_iff_room dynamic_1000Hz Z 2).
  - unfold SIZE_MAX. lia.
  - exact one_of_two_reachable.
Defined.

Lemma size_1_takes_nothing_witness :
  BoundedQueue.TryEmplaceBack 1 9 (BoundedQueue.fresh 1 1)
  = (false, BoundedQueue.fresh 1 1) /\
  BoundedQueue.TryPushBack 1 9 (BoundedQueue.fresh 1 1)
  = (false, BoundedQueue.fresh 1 1) /\
  BoundedQueue.resident (BoundedQueue.fresh (T := Z) 1 1) = 0 /\
  @BoundedQueue.Front dynamic_1000Hz Z 0 (BoundedQueue.fresh 1 1)
  = Returns (None, BoundedQueue.fresh 1 1).
Proof.
  apply (@QueueExtras.size_1_takes_nothing dynamic_1000Hz Z).
  exists 1, [], []. reflexivity.
Defined.

Lemma constructed_Mutex_is_free_witness :
  let m := {| Sync.handle := 1; Sync.object := mutex_obj |} in
  Sync.Unlock m = (false, m) /\
  exists held,
    @Sync.Lock dynamic_1000Hz 20 m = Returns (true, held) /\
    Sync.LockFromISR m = (true, held) /\
    Sync.LockFromISR held = (false, held) /\
    (@pdMS_TO_TICKS dynamic_1000Hz 20 <> @portMAX_DELAY dynamic_1000Hz ->
     @Sync.Lock dynamic_1000Hz 20 held = Returns (false, held)) /\
    Sync.Unlock held = (true, m) /\
    Sync.UnlockFromISR held = (true, m).
Proof.
  apply (@SyncExtras.constructed_Mutex_is_free dynamic_1000Hz accepting
           {| Sync.handle := 1; Sync.object := mutex_obj |}
           {| answers := []; calls := [call_xSemaphoreCreateMutex] |} 20).
  reflexivity.
Defined.

Lemma constructed_BinarySemaphore_is_empty_witness :
  let s := {| Sync.handle := 2; Sync.object := binary_obj |} in
  Sync.TakeFromISR s = (false, s) /\
  (@pdMS_TO_TICKS dynamic_1000Hz 0 = 0 -> @portMAX_DELAY dynamic_1000Hz <> 0 ->
   @Sync.Take dynamic_1000Hz 0 s = Returns (false, s)) /\
  exists given,
    Sync.Give s = (true, given) /\
    Sync.Give given = (false, given) /\
    Sync.GiveFromISR given = (false, given) /\
    @Sync.Take dynamic_1000Hz 0 given = Returns (true, s) /\
    Sync.TakeFromISR given = (true, s).
Proof.
  apply (@SyncExtras.constructed_BinarySemaphore_is_empty dynamic_1000Hz
           {| answers := [1; 2]; calls := [] |}
           {| Sync.handle := 2; Sync.object := binary_obj |}
           {| answers := [];
              calls := [call_xSemaphoreCreateMutex;
                        call_xSemaphoreCreateBinary] |} 0).
  reflexivity.
Defined.

Lemma CountingSemaphore_gives_up_to_max_witness :
  let s := {| Sync.handle := 3; Sync.object := counting_obj 2 0 |} in
  Sync.GetCount s = 0 /\
  Sync.GetCount (snd (SyncRuns.Give_times 3 s)) = Z.min 2 (0 + Z.of_nat 3) /\
  length (fst (SyncRuns.Give_times 3 s)) = 3%nat /\
  forall i : nat,
    (i < 3)%nat ->
    nth i (fst (SyncRuns.Give_times 3 s)) false = (0 + Z.of_nat i <? 2).
Proof.
  apply (@SyncExtras.CountingSemaphore_gives_up_to_max dynamic_1000Hz 0 2
           {| answers := [1; 2; 3]; calls := [] |}
           {| Sync.handle := 3; Sync.object := counting_obj 2 0 |}
           {| answers := [];
              calls := [call_xSemaphoreCreateMutex;
                        call_xSemaphoreCreateBinary;
                        call_xSemaphoreCreateCounting 2 0] |} 3).
  - lia.
  - reflexivity.
Defined.

Lemma count_stays_in_bounds_witness :
  let m := {| Sync.handle := 3; Sync.object := counting_obj 2 0 |} in
  let m' := {| Sync.handle := 3; Sync.object := counting_obj 2 1 |} in
  0 <= Sync.GetCount m' <= uxLength (Sync.object m') /\
  uxLength (Sync.object m') = uxLength (Sync.object m) /\
  Sync.handle m' = Sync.handle m /\
  length [true; true; false; true] = length
    [SyncRuns.call_Unlock; SyncRuns.call_UnlockFromISR;
     SyncRuns.call_Unlock; SyncRuns.call_Lock 20].
Proof.
  apply (@SyncExtras.count_stays_in_bounds dynamic_1000Hz
           [SyncRuns.call_Unlock; SyncRuns.call_UnlockFromISR;
            SyncRuns.call_Unlock; SyncRuns.call_Lock 20]
           {| Sync.handle := 3; Sync.object := counting_obj 2 0 |}
           [true; true; false; true]
           {| Sync.handle := 3; Sync.object := counting_obj 2 1 |}).
  - simpl. lia.
  - reflexivity.
Defined.

Lemma CountingSemaphore_life_deletes_last_only_witness :
  @SyncRuns.CountingSemaphore_life dynamic_1000Hz 0 2
    {| answers := [11; 12; 13]; calls := [] |}
  = Returns ({| Sync.handle := nullptr; Sync.object := counting_obj 2 0 |},
             {| answers := [];
                calls := [] ++ [call_xSemaphoreCreateMutex;
                                call_xSemaphoreCreateBinary;
                                call_xSemaphoreCreateCounting 2 0;
                                call_vSemaphoreDelete 13] |}).
Proof.
  apply (@SyncExtras.CountingSemaphore_life_deletes_last_only dynamic_1000Hz
           0 2 {| answers := [11; 12; 13]; calls := [] |} 11 12 13 []);
    reflexivity || discriminate.
Defined.

Lemma dtor_joins_witness :
  let r := {| Tasks.done := {| Sync.handle := 2;
                               Sync.object := binary_obj |} |} in
  let es := [Tasks.run_spawned; Tasks.run_owner; Tasks.run_spawned;
             Tasks.run_owner] in
  true = true /\
  Tasks.counter (@Tasks.schedule dynamic_1000Hz es (Tasks.spawned_system r))
  = 1 /\
  (Tasks.spawned (@Tasks.schedule dynamic_1000Hz es (Tasks.spawned_system r))
   = Tasks.at_SelfDelete \/
   Tasks.spawned (@Tasks.schedule dynamic_1000Hz es (Tasks.spawned_system r))
   = Tasks.self_deleted).
Proof.
  apply (@AsyncFacts.dtor_joins dynamic_1000Hz eq_refl 2
           [Tasks.run_spawned; Tasks.run_owner; Tasks.run_spawned;
            Tasks.run_owner] true).
  reflexivity.
Defined.

Lemma Delete_halts_when_refused_witness :
  (hd 0 (answers refusing) <> pdPASS ->
   @Timers.Delete dynamic_1000Hz 0 a_timer refusing = Halts /\
   @Timers.Timer_dtor dynamic_1000Hz a_timer refusing = Halts) /\
  (hd 0 (answers refusing) = pdPASS ->
   @Timers.Delete dynamic_1000Hz 0 a_timer refusing
   = Returns ({| Timers.handle := nullptr |},
              {| answers := tl (answers refusing);
                 calls := calls refusing
                          ++ [call_xTimerDelete (Timers.handle a_timer)
                                (@pdMS_TO_TICKS dynamic_1000Hz 0)] |})).
Proof.
  apply (@TimerExtras.Delete_halts_when_refused dynamic_1000Hz 0 a_timer
           refusing).
  discriminate.
Defined.

Lemma commands_after_Delete_pass_null_witness :
  let t' := {| Timers.handle := nullptr |} in
  let k' := {| answers := [1]; calls := [call_xTimerDelete 5 0] |} in
  @Timers.Start dynamic_1000Hz 7 t' k'
  = Returns (tt, {| answers := tl (answers k');
                    calls := calls k'
                             ++ [call_xTimerStart nullptr
                                   (@pdMS_TO_TICKS dynamic_1000Hz 7)] |}) /\
  @Timers.Stop dynamic_1000Hz 7 t' k'
  = Returns (tt, {| answers := tl (answers k');
                    calls := calls k'
                             ++ [call_xTimerStop nullptr
                                   (@pdMS_TO_TICKS dynamic_1000Hz 7)] |}).
Proof.
  apply (@TimerExtras.commands_after_Delete_pass_null dynamic_1000Hz 0 7
           a_timer {| answers := [1; 1]; calls := [] |}).
  - reflexivity.
  - reflexivity.
Defined.

Lemma Wait_keeps_the_period_witness :
  PeriodicWait.xLastWakeTime
    (@PeriodicWait.Wait_all dynamic_1000Hz [10; 10; 10]
       (PeriodicWait.Reset 100 (PeriodicWait.TimerDelay_ctor false 42)))
  = (100 + fold_right Z.add 0
             (map (@pdMS_TO_TICKS dynamic_1000Hz) [10; 10; 10])) mod 2 ^ 32 /\
  PeriodicWait.xLastWakeTime
    (@PeriodicWait.Wait_all dynamic_1000Hz [10; 10; 10]
       (PeriodicWait.TimerDelay_ctor true 100))
  = (100 + fold_right Z.add 0
             (map (@pdMS_TO_TICKS dynamic_1000Hz) [10; 10; 10])) mod 2 ^ 32 /\
  PeriodicWait.xLastWakeTime
    (@PeriodicWait.Wait_all dynamic_1000Hz [10; 10; 10]
       (PeriodicWait.TimerDelay_ctor false 42))
  = (fold_right Z.add 0
       (map (@pdMS_TO_TICKS dynamic_1000Hz) [10; 10; 10])) mod 2 ^ 32.
Proof.
  apply (@PeriodicWaitExtras.Wait_keeps_the_period dynamic_1000Hz false 100 42
           [10; 10; 10]).
  lia.
Defined.

End ExtraWitnesses.
